(** * zkapp.ts: method dispatch, statements, proving and deployment

    A shallow embedding of [src/lib/zkapp.ts].  JavaScript objects that the
    code shares and mutates (parties, contract instances, contract classes)
    live in an explicit store and are named by references; the module-level
    variables [mainContext], [Mina.currentTransaction] and
    [Mina.nextTransactionId] are fields of the same store.  Every function of
    the source becomes a computation in a state-and-exception monad over that
    store. *)

From Stdlib Require Import ZArith Lia.
From stdpp Require Import base option list strings gmap.

(** ** JavaScript values *)

Set Warnings "-notation-for-abbreviation".

(** Objects are named by their position in the store. *)
Notation pref := nat (only parsing).   (* reference to a Party object *)
Notation iref := nat (only parsing).   (* reference to a SmartContract instance *)
Notation cref := nat (only parsing).   (* reference to a SmartContract class *)

Definition Field : Type := Z.
Bind Scope Z_scope with Field.
Definition PrivateKey := nat.
Definition PublicKey := nat.

(** Numbers that the code compares with [===]: [NaN] is different from
    every number, itself included. *)
Inductive jsnum :=
| Num (n : nat)
| NaN.

#[global] Instance jsnum_eq_dec : EqDecision jsnum.
Proof. solve_decision. Defined.

Definition strict_eq (a b : jsnum) : bool :=
  match a, b with
  | Num x, Num y => Nat.eqb x y
  | _, _ => false
  end.

(** A verification key as callers pass it: [{ data: string; hash: Field | string }]. *)
Record VerificationKeyArg := mkVKArg { vka_data : string; vka_hash : Field + string }.

(** The values that travel through method arguments and property slots.
    A circuit value is given by its field elements; a function is either a
    user-written body (named) or the wrapper built by [wrapMethod], which
    closes over [method], [argsLength] and [ZkappClass]; an object of type
    [DeployArgs] is given by its two optional properties. *)
Inductive jsval :=
| JUndefined
| JBool (b : bool)
| JStr (s : string)
| JCircuit (fields : list Field)
| JUser (id : string)
| JWrapped (method : jsval) (argsLength : nat) (ZkappClass : cref)
| JDeployArgs (verificationKey : option VerificationKeyArg) (zkappKey : option PrivateKey).

Definition is_function (v : jsval) : bool :=
  match v with
  | JUser _ | JWrapped _ _ _ => true
  | _ => false
  end.

(** [x === true] *)
Definition is_true (v : option jsval) : bool :=
  match v with
  | Some (JBool true) => true
  | _ => false
  end.

(** A declared parameter type, as [Reflect] metadata hands it to [method]:
    either a falsy value or an object with some own properties. *)
Inductive ParamType :=
| PUndefined
| PObject (props : list string) (size : nat).

Definition has_own (s : string) (props : list string) : bool :=
  existsb (String.eqb s) props.

(** ** Errors

    The source throws plain [Error]s; the constructors name the throw sites
    with the words of the specification's taxonomy. *)
Inductive error :=
| ReservedName            (* "Property name ... is reserved." *)
| NotAFunction            (* "@method decorator was applied to ..., which is not a function." *)
| InvalidArgument (i : nat) (* "Argument i of method ... is not a valid circuit value." *)
| NotCompiled             (* "Cannot produce execution proof - no provers found." *)
| MethodNotFound          (* "Method ... not found!" *)
| MissingFeePayerKey      (* deploy: initialBalance without feePayerKey *)
| MissingFeePayerOrFee    (* deploy: shouldSignFeePayer without key or fee *)
| ProofVerificationFailed (* "Proof failed to verify!" *)
| StatementMismatch       (* a failed Field.assertEquals *)
| WitnessArityMismatch    (* named by the specification; no throw site *)
| NoActiveContext         (* getContext outside withContext *)
| NestedTransaction       (* createUnsignedTransaction inside a transaction *)
| TypeError               (* property access on undefined, call of a non-function *)
| External (msg : string). (* failure inside a collaborator *)

Inductive result (A : Type) :=
| Ok (a : A)
| Throw (e : error).
Arguments Ok {A} a.
Arguments Throw {A} e.

(** ** Parties (account updates) *)

Record VerificationKey := mkVK { vk_data : string; vk_hash : Field }.

Inductive Permissions := DefaultPermissions | CustomPermissions (n : nat).

(** [party.authorization]: an object whose shape is probed with [in]. *)
Inductive Authorization :=
| AuthNone
| AuthSignature (s : string)
| AuthProof (p : string)
| AuthLazySignature (key : option PrivateKey)
| AuthLazyProof (method : jsval) (args : list jsval) (ZkappClass : cref).

(** [k in auth] *)
Definition auth_has (k : string) (a : Authorization) : bool :=
  match a with
  | AuthNone => false
  | AuthSignature _ => String.eqb k "signature"
  | AuthProof _ => String.eqb k "proof"
  | AuthLazySignature _ => String.eqb k "kind" || String.eqb k "privateKey"
  | AuthLazyProof _ _ _ =>
      String.eqb k "kind" || String.eqb k "method" || String.eqb k "args"
      || String.eqb k "ZkappClass"
  end.

Record Party := mkParty {
  publicKey : PublicKey;
  delta : Z;                                  (* body.delta, the balance change *)
  update_verificationKey : option VerificationKey; (* SetOrKeep *)
  update_permissions : option Permissions;    (* SetOrKeep *)
  incrementNonce : bool;
  authorization : Authorization;
  isSelf : bool
}.

Definition set_authorization (a : Authorization) (p : Party) : Party :=
  mkParty (publicKey p) (delta p) (update_verificationKey p)
          (update_permissions p) (incrementNonce p) a (isSelf p).

Definition set_delta (d : Z) (p : Party) : Party :=
  mkParty (publicKey p) d (update_verificationKey p)
          (update_permissions p) (incrementNonce p) (authorization p) (isSelf p).

Definition set_update_verificationKey (v : option VerificationKey) (p : Party) : Party :=
  mkParty (publicKey p) (delta p) v
          (update_permissions p) (incrementNonce p) (authorization p) (isSelf p).

Definition set_update_permissions (v : option Permissions) (p : Party) : Party :=
  mkParty (publicKey p) (delta p) (update_verificationKey p)
          v (incrementNonce p) (authorization p) (isSelf p).

Definition set_incrementNonce (b : bool) (p : Party) : Party :=
  mkParty (publicKey p) (delta p) (update_verificationKey p)
          (update_permissions p) b (authorization p) (isSelf p).

(** Modelled from the spec: [Body.keepAll(address)] of party.ts, the body of
    [createDefaultUpdate(address)]: no balance change, every update kept. *)
Definition keepAll (address : PublicKey) (auth : Authorization) (self : bool) : Party :=
  mkParty address 0 None None false auth self.

(** ** Statements *)

Record Statement := mkStatement { transaction : Field; atParty : Field }.

(** ** Classes, instances and the global store *)

Record ArgEntry := mkArg { arg_type : string; arg_index : nat }.

Record methodEntry := mkMethodEntry {
  methodName : string;
  witnessArgs : list ParamType;
  proofArgs : list ParamType;
  args : list ArgEntry
}.

(** A Pickles rule [[0, name, main]]: [main] closes over the rule's function
    [(...args) => instance[methodName](...args)] and over [witnessTypes]. *)
Record Rule := mkRule {
  rule_name : string;
  rule_instance : iref;
  rule_method : string;
  rule_witnessTypes : list ParamType
}.

(** A prover handle: the one Pickles builds for a rule, or a foreign one. *)
Inductive Prover :=
| PicklesProver (r : Rule)
| ForeignProver (id : nat).

Record Proof := mkProof { proof_rule : string; proof_statement : Statement }.

(** A contract class, by what is read from it: the statics [_methods],
    [_provers] and [_verificationKey], the properties that its prototype
    holds itself, and the parameter types recorded for them.  The members
    that the class takes over from [SmartContract] are not entries of
    [prototype]: the functions of this development stand for them. *)
Record ZkappClass := mkClass {
  class_name : string;
  _methods : option (list methodEntry);
  _provers : option (list Prover);
  _verificationKey : option VerificationKeyArg;
  prototype : gmap string jsval;                (* own properties of the prototype *)
  paramtypes : gmap string (list ParamType)     (* 'design:paramtypes' metadata *)
}.

Record ExecutionState := mkExecutionState {
  transactionId : jsnum;
  partyIndex : jsnum;
  party : pref
}.

Record SmartContractObj := mkSmartContract {
  address : PublicKey;
  constructor : cref;
  _executionState : option ExecutionState
}.

(** global-context.ts: the ambient context. *)
Record Context := mkContext {
  ctx_self : pref;
  ctx_inCompile : bool;
  ctx_inProver : bool;
  ctx_witnesses : option (list jsval)
}.

(** mina.ts: the transaction under construction. *)
Record CurrentTransaction := mkCurrentTransaction {
  parties : list pref;
  nextPartyIndex : nat
}.

Record World := mkWorld {
  partyHeap : list Party;
  zkapps : list SmartContractObj;
  classes : list ZkappClass;
  mainContext : option Context;
  currentTransaction : option CurrentTransaction;
  nextTransactionId : nat
}.

Definition set_partyHeap (h : list Party) (w : World) : World :=
  mkWorld h (zkapps w) (classes w) (mainContext w) (currentTransaction w)
          (nextTransactionId w).
Definition set_zkapps (z : list SmartContractObj) (w : World) : World :=
  mkWorld (partyHeap w) z (classes w) (mainContext w) (currentTransaction w)
          (nextTransactionId w).
Definition set_classes (c : list ZkappClass) (w : World) : World :=
  mkWorld (partyHeap w) (zkapps w) c (mainContext w) (currentTransaction w)
          (nextTransactionId w).
Definition set_mainContext (c : option Context) (w : World) : World :=
  mkWorld (partyHeap w) (zkapps w) (classes w) c (currentTransaction w)
          (nextTransactionId w).
Definition set_currentTransaction (t : option CurrentTransaction) (w : World) : World :=
  mkWorld (partyHeap w) (zkapps w) (classes w) (mainContext w) t
          (nextTransactionId w).
Definition set_nextTransactionId (n : nat) (w : World) : World :=
  mkWorld (partyHeap w) (zkapps w) (classes w) (mainContext w)
          (currentTransaction w) n.

(** ** The monad of the embedding *)

Definition M (A : Type) : Type := World -> result (A * World).

Definition ret {A} (a : A) : M A := fun w => Ok (a, w).
Definition throw {A} (e : error) : M A := fun _ => Throw e.
Definition bind {A B} (k : A -> M B) (m : M A) : M B :=
  fun w => match m w with
           | Ok (a, w') => k a w'
           | Throw e => Throw e
           end.
Definition get : M World := fun w => Ok (w, w).
Definition modify (f : World -> World) : M unit := fun w => Ok (tt, f w).

#[global] Instance M_ret : MRet M := @ret.
#[global] Instance M_bind : MBind M := @bind.

(** Sequential [Array.prototype.map] with an effectful callback
    [(element, index) => ...], starting at index [i]. *)
Fixpoint mapiM {A B} (f : A -> nat -> M B) (i : nat) (l : list A) : M (list B) :=
  match l with
  | [] => ret []
  | x :: l' => y ← f x i; ys ← mapiM f (S i) l'; ret (y :: ys)
  end.

(** *** Store access *)

Definition readParty (p : pref) : M Party :=
  fun w => match partyHeap w !! p with
           | Some x => Ok (x, w)
           | None => Throw TypeError
           end.

Definition updateParty (p : pref) (f : Party -> Party) : M unit :=
  fun w => match partyHeap w !! p with
           | Some x => Ok (tt, set_partyHeap (<[p := f x]> (partyHeap w)) w)
           | None => Throw TypeError
           end.

Definition newParty (x : Party) : M pref :=
  fun w => Ok (length (partyHeap w), set_partyHeap (partyHeap w ++ [x]) w).

Definition readInstance (i : iref) : M SmartContractObj :=
  fun w => match zkapps w !! i with
           | Some x => Ok (x, w)
           | None => Throw TypeError
           end.

Definition writeInstance (i : iref) (x : SmartContractObj) : M unit :=
  fun w => match zkapps w !! i with
           | Some _ => Ok (tt, set_zkapps (<[i := x]> (zkapps w)) w)
           | None => Throw TypeError
           end.

(** [new SmartContract(address)] for the class [c]. *)
Definition newInstance (c : cref) (addr : PublicKey) : M iref :=
  fun w => Ok (length (zkapps w),
               set_zkapps (zkapps w ++ [mkSmartContract addr c None]) w).

Definition readClass (c : cref) : M ZkappClass :=
  fun w => match classes w !! c with
           | Some x => Ok (x, w)
           | None => Throw TypeError
           end.

Definition writeClass (c : cref) (x : ZkappClass) : M unit :=
  fun w => match classes w !! c with
           | Some _ => Ok (tt, set_classes (<[c := x]> (classes w)) w)
           | None => Throw TypeError
           end.

(** ** global-context.ts *)

(** Modelled from the spec: [withContext(config, body)] of global-context.ts,
    the activation of section 4.1.  It runs [body] with [config] as the active
    context, restores the previous one on exit and returns the context's party
    together with the body's result. *)
Definition withContext {A} (ctx : Context) (f : M A) : M (pref * A) :=
  w ← get;
  modify (set_mainContext (Some ctx));;
  r ← f;
  modify (set_mainContext (mainContext w));;
  mret (ctx_self ctx, r).

(** Modelled from the spec: [withContextAsync], the asynchronous variant of
    [withContext] with the same restore guarantee; awaiting is sequencing. *)
Definition withContextAsync {A} (ctx : Context) (f : M A) : M (pref * A) :=
  withContext ctx f.

(** Modelled from the spec: [getContext()] of global-context.ts, [current()]
    of section 4.1: the active context, or [NoActiveContext]. *)
Definition getContext : M Context :=
  w ← get;
  match mainContext w with
  | Some ctx => mret ctx
  | None => throw NoActiveContext
  end.

(** Modelled from the spec: [inCompile()] of global-context.ts: whether the
    active context, if any, has [isCompiling = true]. *)
Definition inCompile : M bool :=
  w ← get;
  mret (match mainContext w with
        | Some ctx => ctx_inCompile ctx
        | None => false
        end).

(** ** The self party of a contract instance *)

(** [selfParty(address)]: a new party object with an empty authorization. *)
Definition selfParty (addr : PublicKey) : M pref :=
  newParty (keepAll addr AuthNone true).

(** Modelled from the spec: [Party.defaultParty(address)] of party.ts,
    [createDefaultUpdate(address)]. *)
Definition defaultParty (addr : PublicKey) : M pref :=
  newParty (keepAll addr AuthNone false).

Definition executionState (this : iref) : M ExecutionState :=
  w ← get;
  match mainContext w with
  | Some ctx => mret (mkExecutionState (Num 0) (Num 0) (ctx_self ctx))
  | None =>
      inst ← readInstance this;
      match currentTransaction w with
      | None =>
          p ← selfParty (address inst);
          mret (mkExecutionState NaN NaN p)
      | Some tx =>
          let create : M ExecutionState :=
            let id := nextTransactionId w in
            let index := nextPartyIndex tx in
            p ← selfParty (address inst);
            modify (set_currentTransaction
                      (Some (mkCurrentTransaction (parties tx ++ [p]) (S index))));;
            let es := mkExecutionState (Num id) (Num index) p in
            writeInstance this (mkSmartContract (address inst) (constructor inst) (Some es));;
            mret es in
          match _executionState inst with
          | Some es =>
              if strict_eq (transactionId es) (Num (nextTransactionId w))
              then mret es
              else create
          | None => create
          end
      end
  end.

(** [get self()] *)
Definition self (this : iref) : M pref :=
  es ← executionState this;
  mret (party es).

(** ** Collaborators

    What the code imports from the proof system, the ledger and the
    precondition module, together with the bodies of the user's methods. *)
Record Backend := mkBackend {
  user_body : string -> iref -> list jsval -> M jsval;
  Party_hash : Party -> Field;
  Ledger_hashTransactionChecked : Field -> Field;
  Ledger_transactionStatement : list Party -> nat -> Statement;
  Circuit_witness : ParamType -> jsval -> M jsval;
  assertPreconditionInvariants : pref -> M unit;
  cleanPreconditionsCache : pref -> M unit;
  foreign_prover : nat -> Statement -> M Proof;
  Pickles_verificationKey : list Rule -> VerificationKey;
  PrivateKey_random : PrivateKey;
  toPublicKey : PrivateKey -> PublicKey;
  Mina_accountCreationFee : Z;
  Mina_getAccount_nonce : PublicKey -> M nat;
  Field_of_string : string -> Field;
  sign_with : PrivateKey -> Party -> string;
  signFeePayer_with : PrivateKey -> PublicKey -> nat -> Z -> string
}.

(** Modelled from the spec: [x.assertEquals(y)] on field elements, the
    equality assertion of the proof system, which fails when the two values
    differ, as a constraint in the prover and as a comparison outside. *)
Definition Field_assertEquals (x y : Field) : M unit :=
  if Z.eqb x y then mret tt else throw StatementMismatch.

Section Zkapp.

Variable B : Backend.

(** *** The dispatch wrapper *)

(** [wrappedMethod] of [wrapMethod(method, argsLength, ZkappClass)];
    [apply_method] is [method.apply]. *)
Definition wrappedMethod
    (apply_method : iref -> list jsval -> M jsval)
    (method : jsval) (argsLength : nat) (ZkappClass : cref)
    (this : iref) (args : list jsval) : M jsval :=
  let actualArgs := take argsLength args in
  let shouldCallDirectly := args !! argsLength in
  w ← get;
  if bool_decide (currentTransaction w = None) || is_true shouldCallDirectly then
    c ← inCompile;
    if (c : bool) then
      result ← apply_method this actualArgs;
      s ← self this;
      assertPreconditionInvariants B s;;
      mret result
    else
      apply_method this actualArgs
  else
    s ← self this;
    p ← readParty s;
    let auth := authorization p in
    (if negb (auth_has "kind" auth || auth_has "proof" auth || auth_has "signature" auth)
     then
       s' ← self this;
       updateParty s' (set_authorization (AuthLazyProof method actualArgs ZkappClass))
     else mret tt);;
    apply_method this actualArgs.

(** Calling a function value with a receiver. *)
Fixpoint callFn (f : jsval) (this : iref) (args : list jsval) : M jsval :=
  match f with
  | JUser id => user_body B id this args
  | JWrapped m n c => wrappedMethod (callFn m) m n c this args
  | _ => throw TypeError
  end.

Definition wrapMethod (method : jsval) (argsLength : nat) (ZkappClass : cref) : jsval :=
  JWrapped method argsLength ZkappClass.

(** [this[methodName](...args)] *)
Definition callMethod (this : iref) (name : string) (args : list jsval) : M jsval :=
  inst ← readInstance this;
  cls ← readClass (constructor inst);
  callFn (default JUndefined (prototype cls !! name)) this args.

End Zkapp.

(** ** Method registration *)

Definition reservedPropNames : list string := ["_methods"; "_"].

Definition isAsFields (typ : ParamType) : bool :=
  match typ with
  | PUndefined => false
  | PObject props _ =>
      forallb (fun s => has_own s props) ["toFields"; "ofFields"; "sizeInFields"]
  end.

Definition isProof (typ : ParamType) : bool := false.

(** The classification loop of [method], from index [i] on. *)
Fixpoint classify (paramTypes : list ParamType) (i : nat)
    (witnessArgs proofArgs : list ParamType) (args : list ArgEntry)
    : result (list ParamType * list ParamType * list ArgEntry) :=
  match paramTypes with
  | [] => Ok (witnessArgs, proofArgs, args)
  | param :: rest =>
      if isProof param then
        classify rest (S i) witnessArgs (proofArgs ++ [param])
                 (args ++ [mkArg "proof" (length proofArgs)])
      else if isAsFields param then
        classify rest (S i) (witnessArgs ++ [param]) proofArgs
                 (args ++ [mkArg "witness" (length witnessArgs)])
      else Throw (InvalidArgument i)
  end.

Definition set_methods (ms : option (list methodEntry)) (c : ZkappClass) : ZkappClass :=
  mkClass (class_name c) ms (_provers c) (_verificationKey c) (prototype c) (paramtypes c).
Definition set_prototype (p : gmap string jsval) (c : ZkappClass) : ZkappClass :=
  mkClass (class_name c) (_methods c) (_provers c) (_verificationKey c) p (paramtypes c).
Definition set_paramtypes (p : gmap string (list ParamType)) (c : ZkappClass) : ZkappClass :=
  mkClass (class_name c) (_methods c) (_provers c) (_verificationKey c) (prototype c) p.
Definition set_compiled (ps : option (list Prover)) (vk : option VerificationKeyArg)
    (c : ZkappClass) : ZkappClass :=
  mkClass (class_name c) (_methods c) ps vk (prototype c) (paramtypes c).

(** [method(target, methodName, descriptor)] with [target] the prototype of
    the class [ZkappClass]; the descriptor is given by its [value] and the
    mutated [value] is returned. *)
Definition method (ZkappClass : cref) (methodName : string) (descriptor : jsval) : M jsval :=
  cls ← readClass ZkappClass;
  if has_own methodName reservedPropNames then throw ReservedName
  else if negb (is_function (default JUndefined (prototype cls !! methodName)))
  then throw NotAFunction
  else
    match paramtypes cls !! methodName with
    | None => throw TypeError
    | Some paramTypes =>
        match classify paramTypes 0 [] [] [] with
        | Throw e => throw e
        | Ok (witnessArgs, proofArgs, args) =>
            let methods := default [] (_methods cls) in
            writeClass ZkappClass
              (set_methods
                 (Some (methods ++ [mkMethodEntry methodName witnessArgs proofArgs args]))
                 cls);;
            let argsLength := length args in
            let func := descriptor in
            mret (JWrapped func argsLength ZkappClass)
        end
    end.

(** [Reflect.metadata('design:paramtypes', argumentTypes)(target, key)] *)
Definition defineParamtypes (c : cref) (key : string) (types : list ParamType) : M unit :=
  cls ← readClass c;
  writeClass c (set_paramtypes (<[key := types]> (paramtypes cls)) cls).

(** [Object.getOwnPropertyDescriptor(target, key)] *)
Definition getOwnPropertyDescriptor (c : cref) (key : string) : M (option jsval) :=
  cls ← readClass c;
  mret (prototype cls !! key).

(** [Object.defineProperty(target, key, descriptor)] *)
Definition defineProperty (c : cref) (key : string) (descriptor : jsval) : M unit :=
  cls ← readClass c;
  writeClass c (set_prototype (<[key := descriptor]> (prototype cls)) cls).

(** [declareMethods(SmartContract, methodArguments)]; the record
    [methodArguments] is given by its entries in iteration order. *)
Fixpoint declareMethods (SmartContract : cref)
    (methodArguments : list (string * list ParamType)) : M unit :=
  match methodArguments with
  | [] => mret tt
  | (key, argumentTypes) :: rest =>
      defineParamtypes SmartContract key argumentTypes;;
      d ← getOwnPropertyDescriptor SmartContract key;
      descriptor ← method SmartContract key (default JUndefined d);
      defineProperty SmartContract key descriptor;;
      declareMethods SmartContract rest
  end.

(** The [@method] decorator as the TypeScript compiler applies it to a
    method with parameter types [types]:
    [__decorate([method, __metadata('design:paramtypes', types)], target, key, null)]
    takes the own property descriptor, runs the decorators from the last to
    the first and defines the property with the resulting descriptor. *)
Definition decorate_method (c : cref) (key : string) (types : list ParamType) : M unit :=
  d ← getOwnPropertyDescriptor c key;
  defineParamtypes c key types;;
  descriptor ← method c key (default JUndefined d);
  defineProperty c key descriptor.

(** ** mina.ts and party.ts *)

Record FeePayer := mkFeePayer {
  fp_publicKey : PublicKey;
  fp_nonce : nat;
  fp_fee : Z;
  fp_authorization : string
}.

(** A finished transaction: [{ feePayer, otherParties }]. *)
Record Parties := mkParties {
  feePayer : FeePayer;
  otherParties : list Party
}.

Fixpoint readParties (l : list pref) : M (list Party) :=
  match l with
  | [] => mret []
  | p :: l' => x ← readParty p; xs ← readParties l'; mret (x :: xs)
  end.

(** Modelled from the spec: [Mina.createUnsignedTransaction(f)] of mina.ts,
    the transaction-building session.  It opens a session with no account
    update, runs [f], collects the account updates that [f] appended, closes
    the session and moves on to the next transaction identifier; the fee payer
    is a placeholder.  Sessions do not nest. *)
Definition createUnsignedTransaction (f : M unit) : M Parties :=
  w ← get;
  match currentTransaction w with
  | Some _ => throw NestedTransaction
  | None =>
      modify (set_currentTransaction (Some (mkCurrentTransaction [] 0)));;
      f;;
      w' ← get;
      ps ← readParties (default [] (parties <$> currentTransaction w'));
      modify (set_currentTransaction None);;
      modify (set_nextTransactionId (S (nextTransactionId w')));;
      mret (mkParties (mkFeePayer 0 0 0 "dummySignature") ps)
  end.

(** Modelled from the spec: [Mina.setCurrentTransaction(tx)] of mina.ts,
    which installs [tx] as the transaction under construction. *)
Definition setCurrentTransaction (tx : CurrentTransaction) : M unit :=
  modify (set_currentTransaction (Some tx)).

(** Modelled from the spec: [party.signInPlace(key, fallbackToZeroNonce)] of
    party.ts, [signUpdateInPlace]: the update increments the nonce and carries
    a signature authorization, to be completed with [key]. *)
Definition signInPlace (p : pref) (key : option PrivateKey) (fallbackToZeroNonce : bool) : M unit :=
  updateParty p (fun x => set_authorization (AuthLazySignature key) (set_incrementNonce true x)).

(** Modelled from the spec: [party.balance.addInPlace(x)] and
    [party.balance.subInPlace(x)] of party.ts, on the balance delta; amounts
    and deltas are integers. *)
Definition balance_addInPlace (p : pref) (x : Z) : M unit :=
  updateParty p (fun y => set_delta (delta y + x) y).


(** Modelled from the spec: [tx.sign()] of mina.ts: every signature
    authorization waiting for a known key is completed with that key. *)
Definition sign_party (sign : PrivateKey -> Party -> string) (x : Party) : Party :=
  match authorization x with
  | AuthLazySignature (Some k) => set_authorization (AuthSignature (sign k x)) x
  | _ => x
  end.

Fixpoint findIndex {A} (f : A -> bool) (l : list A) : option nat :=
  match l with
  | [] => None
  | x :: l' => if f x then Some 0 else S <$> findIndex f l'
  end.


Section Pipelines.

Variable B : Backend.


(** *** Statements *)

Definition toStatement (self : pref) (tail : Field) : M Statement :=
  p ← readParty self;
  let atParty := Party_hash B p in
  let transaction := Ledger_hashTransactionChecked B atParty in
  mret (mkStatement transaction atParty).

Definition checkStatement (s : Statement) (self : pref) (tail : Field) : M unit :=
  otherStatement ← toStatement self tail;
  Field_assertEquals (atParty s) (atParty otherStatement);;
  Field_assertEquals (transaction s) (transaction otherStatement).

(** *** Pickles rules *)

(** [typ.ofFields(Array(typ.sizeInFields()).fill(Field.zero))]; a circuit
    value is its list of fields. *)
Definition zeroValue (typ : ParamType) : jsval :=
  match typ with
  | PObject _ size => JCircuit (replicate size 0%Z)
  | PUndefined => JUndefined
  end.

(** [Circuit.witness(typ, compute)] receives the value its thunk computes. *)
Definition emptyWitness (typ : ParamType) : M jsval :=
  Circuit_witness B typ (zeroValue typ).

Definition picklesRuleFromFunction (name : string) (instance : iref)
    (methodName : string) (witnessTypes : list ParamType) : Rule :=
  mkRule name instance methodName witnessTypes.

(** The rule's [func]: [(...args) => instance[methodName](...args)]. *)
Definition rule_func (r : Rule) (args : list jsval) : M jsval :=
  callMethod B (rule_instance r) (rule_method r) args.

(** The witnesses that [main] hands to [func]. *)
Definition main_witnesses (witnessTypes : list ParamType)
    (witnesses : option (list jsval)) : M (list jsval) :=
  mapiM (match witnesses with
         | Some ws => fun type i => Circuit_witness B type (default JUndefined (ws !! i))
         | None => fun type _ => emptyWitness type
         end) 0 witnessTypes.

(** [main(statement)] of [picklesRuleFromFunction]. *)
Definition main (r : Rule) (statement : Statement) : M unit :=
  ctx ← getContext;
  let self := ctx_self ctx in
  witnesses ← main_witnesses (rule_witnessTypes r) (ctx_witnesses ctx);
  rule_func r witnesses;;
  let tail := 0%Z in
  Field_assertEquals (transaction statement) (transaction statement);;
  cleanPreconditionsCache B self.

(** Modelled from the spec: [Pickles.compile(rules)] of the proof system:
    every rule body runs once under the compile-time context, a failure
    aborts, and there is one prover handle per rule, in order.  A handle
    invoked on a statement runs its rule's [main] on it and returns an
    opaque proof. *)
Fixpoint run_rules (rules : list Rule) : M unit :=
  match rules with
  | [] => mret tt
  | r :: rest => main r (mkStatement 0%Z 0%Z);; run_rules rest
  end.

Definition Pickles_compile (rules : list Rule) : M (VerificationKey * list Prover) :=
  run_rules rules;;
  mret (Pickles_verificationKey B rules, PicklesProver <$> rules).

Definition run_prover (p : option Prover) (statement : Statement) : M Proof :=
  match p with
  | Some (PicklesProver r) => main r statement;; mret (mkProof (rule_name r) statement)
  | Some (ForeignProver id) => foreign_prover B id statement
  | None => throw TypeError
  end.

End Pipelines.

(** ** The SmartContract class *)

Section SmartContract.

Variable B : Backend.

(** [static async compile(address?)] on the class [this]. *)
Definition compile (this : cref) (address : option PublicKey)
    : M (VerificationKey * list Prover) :=
  let address := default (toPublicKey B (PrivateKey_random B)) address in
  instance ← newInstance this address;
  cls ← readClass this;
  let rules :=
    (fun m => picklesRuleFromFunction (methodName m) instance (methodName m) (witnessArgs m))
      <$> default [] (_methods cls) in
  s ← selfParty address;
  r ← withContext (mkContext s true false None) (Pickles_compile B rules);
  let '(verificationKey, provers) := r.2 in
  cls' ← readClass this;
  writeClass this
    (set_compiled (Some provers)
       (Some (mkVKArg (vk_data verificationKey) (inl (vk_hash verificationKey)))) cls');;
  mret (verificationKey, provers).

(** [sign(zkappKey?, fallbackToZeroNonce?)] *)
Definition sign (this : iref) (zkappKey : option PrivateKey)
    (fallbackToZeroNonce : bool) : M unit :=
  s ← self this;
  signInPlace s zkappKey fallbackToZeroNonce.

(** The instance method [deploy({ verificationKey, zkappKey })]. *)
Definition SmartContract_deploy (this : iref)
    (verificationKey : option VerificationKeyArg) (zkappKey : option PrivateKey) : M unit :=
  inst ← readInstance this;
  cls ← readClass (constructor inst);
  let verificationKey :=
    match verificationKey with
    | Some v => Some v
    | None => _verificationKey cls
    end in
  match verificationKey with
  | Some v =>
      let hash := match vka_hash v with
                  | inr str => Field_of_string B str
                  | inl h => h
                  end in
      s ← self this;
      updateParty s (set_update_verificationKey (Some (mkVK (vka_data v) hash)))
  | None => mret tt
  end;;
  s ← self this;
  updateParty s (set_update_permissions (Some DefaultPermissions));;
  sign this zkappKey true.

(** [async prove(methodName, args, provers?)]; [await] is sequencing and
    [Circuit.runAndCheck] runs its body. *)
Definition prove (this : iref) (methodName_ : string) (args : list jsval)
    (provers : option (list Prover)) : M (Proof * Statement * pref) :=
  inst ← readInstance this;
  let ZkappClass := constructor inst in
  cls ← readClass ZkappClass;
  let provers := match provers with
                 | Some ps => Some ps
                 | None => _provers cls
                 end in
  match provers with
  | None => throw NotCompiled
  | Some provers_ =>
      match _methods cls with
      | None => throw TypeError
      | Some ms =>
          match findIndex (fun m => String.eqb (methodName m) methodName_) ms with
          | None => throw MethodNotFound
          | Some i =>
              p0 ← defaultParty (address inst);
              r ← withContext (mkContext p0 false true None)
                    (callMethod B this methodName_ (args ++ [JBool true]));
              let selfParty := r.1 in
              tx ← createUnsignedTransaction
                     (setCurrentTransaction (mkCurrentTransaction [selfParty] 1));
              let statement := Ledger_transactionStatement B (otherParties tx) 0 in
              p1 ← defaultParty (address inst);
              r' ← withContextAsync (mkContext p1 false true (Some args))
                     (run_prover B (provers_ !! i) statement);
              mret (r'.2, statement, selfParty)
          end
      end
  end.

End SmartContract.

(** ** Functions for the command line *)

Section CLI.

Variable B : Backend.




End CLI.

(** ** The rest of the class and of the command-line functions *)

Section Calls.

Variable B : Backend.


(** [async runAndCheck(methodName, args)]; [ctx.self] is the party that the
    statement is computed from, [toConstant] leaves the digests as they are. *)
Definition runAndCheck (this : iref) (methodName_ : string) (args : list jsval)
    : M (Statement * pref) :=
  inst ← readInstance this;
  let ZkappClass := constructor inst in
  cls ← readClass ZkappClass;
  match _methods cls with
  | None => throw TypeError
  | Some ms =>
      match findIndex (fun m => String.eqb (methodName m) methodName_) ms with
      | None => throw MethodNotFound
      | Some i =>
          ctxSelf ← defaultParty (address inst);
          p ← defaultParty (address inst);
          r ← withContext (mkContext p false true None)
                (callMethod B this methodName_ args);
          let selfParty := r.1 in
          statementVar ← toStatement B ctxSelf 0;
          mret (mkStatement (transaction statementVar) (atParty statementVar), selfParty)
      end
  end.

(** [async call(SmartContract, address, methodName, methodArguments, provers,
    verify?)]; [proofToString] is [Pickles.proofToString] and the result is
    the transaction that [toJSON] serialises. *)
Definition call (proofToString : Proof -> string) (SmartContract : cref)
    (address : PublicKey) (methodName_ : string) (methodArguments : list jsval)
    (provers : list Prover) (verify : option (Statement -> Proof -> bool)) : M Parties :=
  zkapp ← newInstance SmartContract address;
  r ← prove B zkapp methodName_ methodArguments (Some provers);
  let '(proof, statement, selfParty) := r in
  updateParty selfParty (set_authorization (AuthProof (proofToString proof)));;
  match verify with
  | Some v => if v statement proof then mret tt else throw ProofVerificationFailed
  | None => mret tt
  end;;
  createUnsignedTransaction (setCurrentTransaction (mkCurrentTransaction [selfParty] 1)).

(** [async callUnproved(SmartContract, address, methodName, methodArguments,
    zkappKey?)] *)
Definition callUnproved (SmartContract : cref) (address : PublicKey)
    (methodName_ : string) (methodArguments : list jsval)
    (zkappKey : option PrivateKey) : M Parties :=
  zkapp ← newInstance SmartContract address;
  r ← runAndCheck zkapp methodName_ methodArguments;
  let selfParty := r.2 in
  signInPlace selfParty zkappKey false;;
  tx ← createUnsignedTransaction
         (setCurrentTransaction (mkCurrentTransaction [selfParty] 1));
  mret (mkParties (feePayer tx) (sign_party (sign_with B) <$> otherParties tx)).

End Calls.

(** ** A concrete contract

    A contract class with two methods over field elements, and collaborators
    simple enough to run: [bump(x)] adds [x] to the balance of the self party,
    [add2(x, y)] adds [x + y]. *)
Module Example.

Definition FieldT : ParamType := PObject ["sizeInFields"; "toFields"; "ofFields"] 1.

Definition field_arg (v : option jsval) : M Z :=
  match v with
  | Some (JCircuit [x]) => mret x
  | _ => throw TypeError
  end.

Definition bodies (id : string) (this : iref) (args : list jsval) : M jsval :=
  if String.eqb id "bump" then
    x ← field_arg (args !! 0);
    s ← self this;
    balance_addInPlace s x;;
    mret JUndefined
  else if String.eqb id "add2" then
    x ← field_arg (args !! 0);
    y ← field_arg (args !! 1);
    s ← self this;
    balance_addInPlace s (x + y);;
    mret JUndefined
  else throw TypeError.

(** In the prover a witness is the computed value, read back through the
    type's field representation. *)
Definition witness (typ : ParamType) (v : jsval) : M jsval :=
  match typ, v with
  | PObject _ size, JCircuit fs =>
      if Nat.eqb (length fs) size then mret (JCircuit fs) else throw TypeError
  | _, _ => throw TypeError
  end.

Definition hashParty (p : Party) : Field :=
  (Z.of_nat (publicKey p) * 1000003 + delta p * 7 + 1)%Z.

Definition hashTransaction (h : Field) : Field := (h * 31 + 5)%Z.

Definition transactionStatement (ps : list Party) (i : nat) : Statement :=
  match ps !! i with
  | Some p => mkStatement (hashTransaction (hashParty p)) (hashParty p)
  | None => mkStatement 0 0
  end.

Definition backend : Backend :=
  {| user_body := bodies;
     Party_hash := hashParty;
     Ledger_hashTransactionChecked := hashTransaction;
     Ledger_transactionStatement := transactionStatement;
     Circuit_witness := witness;
     assertPreconditionInvariants := fun _ => mret tt;
     cleanPreconditionsCache := fun _ => mret tt;
     foreign_prover := fun _ s => mret (mkProof "foreign" s);
     Pickles_verificationKey := fun _ => mkVK "vk" 42;
     PrivateKey_random := 7;
     toPublicKey := fun k => S k;
     Mina_accountCreationFee := 1000000000;
     Mina_getAccount_nonce := fun _ => mret 0;
     Field_of_string := fun _ => 0%Z;
     sign_with := fun _ _ => "signature";
     signFeePayer_with := fun _ _ _ _ => "feePayerSignature" |}.

Definition C : ZkappClass :=
  mkClass "C" None None None
    (<["bump" := JUser "bump"]> (<["add2" := JUser "add2"]> ∅)) ∅.

(** One class, no instance, nothing active. *)
Definition world0 : World := mkWorld [] [] [C] None None 0.

Definition after {A} (m : M A) (w : World) : World :=
  match m w with
  | Ok (_, w') => w'
  | Throw _ => w
  end.

(** The class with both methods declared, then compiled, and one instance
    at address 9. *)
Definition declared : World :=
  after (declareMethods 0 [("bump", [FieldT]); ("add2", [FieldT; FieldT])]) world0.
Definition compiled : World := after (compile backend 0 (Some 3)) declared.
Definition ready : World := after (newInstance 0 9) compiled.
Definition uncompiled : World := after (newInstance 0 9) declared.

Definition Fv (x : Z) : jsval := JCircuit [x].

(** [ready] with a transaction-building session open. *)
Definition in_session : World :=
  set_currentTransaction (Some (mkCurrentTransaction [] 0)) ready.

(** [in_session] with a prover context around party 0 active as well. *)
Definition under_context : World :=
  set_mainContext (Some (mkContext 0 false true None)) in_session.

End Example.

(** ** Vocabulary of the properties *)

Definition succeeds {A} (r : result A) : bool :=
  match r with
  | Ok _ => true
  | Throw _ => false
  end.

(** Allocation of one witness per declared type from one value each. *)
Fixpoint witness_each (B : Backend) (types : list ParamType) (values : list jsval)
    : M (list jsval) :=
  match types, values with
  | t :: ts, v :: vs =>
      y ← Circuit_witness B t v; ys ← witness_each B ts vs; mret (y :: ys)
  | _, _ => mret []
  end.

(** The rest of a registration, once the metadata is in place and the
    descriptor has been taken. *)
Definition register_with (c : cref) (key : string) (d : option jsval) : M unit :=
  descriptor ← method c key (default JUndefined d);
  defineProperty c key descriptor.

(** The store after a new self party has been created for [inst], appended
    to the transaction [tx] and memoized on the instance [this]. *)
Definition memoize_new (this : iref) (inst : SmartContractObj) (tx : CurrentTransaction)
    (w : World) : World :=
  let p := length (partyHeap w) in
  let es := mkExecutionState (Num (nextTransactionId w)) (Num (nextPartyIndex tx)) p in
  set_zkapps
    (<[this := mkSmartContract (address inst) (constructor inst) (Some es)]> (zkapps w))
    (set_currentTransaction
       (Some (mkCurrentTransaction (parties tx ++ [p]) (S (nextPartyIndex tx))))
       (set_partyHeap (partyHeap w ++ [keepAll (address inst) AuthNone true]) w)).

(** The references that an access of [self] may return point into the store:
    the ambient context's party, or else the party memoized on the instance. *)
Definition wf_self (w : World) (this : iref) : Prop :=
  match mainContext w with
  | Some ctx => ctx_self ctx < length (partyHeap w)
  | None =>
      exists inst, zkapps w !! this = Some inst
                   /\ forall es, _executionState inst = Some es ->
                                 party es < length (partyHeap w)
  end.





(** The class after [key] has been registered with the all-witness
    parameter types [types] over the function [f]. *)
Definition registered (c : cref) (key : string) (types : list ParamType) (f : jsval)
    (cls : ZkappClass) : ZkappClass :=
  mkClass (class_name cls)
    (Some (default [] (_methods cls)
           ++ [mkMethodEntry key types [] (imap (fun k _ => mkArg "witness" k) types)]))
    (_provers cls) (_verificationKey cls)
    (<[key := wrapMethod f (length types) c]> (prototype cls))
    (<[key := types]> (paramtypes cls)).

(** Every party reference held by the ambient context, by a memo on an
    instance or by the transaction under construction points into the store,
    and the transaction's next index is the number of its parties. *)
Definition refs_ok (w : World) : Prop :=
  (forall ctx, mainContext w = Some ctx -> ctx_self ctx < length (partyHeap w))
  /\ (forall i inst es,
        zkapps w !! i = Some inst -> _executionState inst = Some es ->
        party es < length (partyHeap w))
  /\ (forall tx,
        currentTransaction w = Some tx ->
        Forall (fun p => p < length (partyHeap w)) (parties tx)
        /\ nextPartyIndex tx = length (parties tx)).

(** The rules that [compile] builds for a class, bound to its scratch
    instance. *)
Definition rules_of (cls : ZkappClass) (instance : iref) : list Rule :=
  (fun m => picklesRuleFromFunction (methodName m) instance (methodName m) (witnessArgs m))
    <$> default [] (_methods cls).

(** ** Further scenarios *)

Module Scenario.

(** What a run leaves: its result and final store, or the given default and
    the initial store when it throws. *)
Definition outcome {A} (m : M A) (w : World) (d : A) : A * World :=
  match m w with
  | Ok x => x
  | Throw _ => (d, w)
  end.

(** The class of [Example] with nothing declared and one instance. *)
Definition undeclared : World := Example.after (newInstance 0 9) Example.world0.

(** [Example.ready] inside [compile]'s context around party 0. *)
Definition compiling : World :=
  set_mainContext (Some (mkContext 0 true false None)) Example.ready.

Definition proofToString (p : Proof) : string := proof_rule p.

Definition stored_provers : list Prover :=
  default [] (classes Example.ready !! 0 ≫= _provers).

Definition vk0 : VerificationKeyArg := mkVKArg "vk" (inl 42%Z).

Definition no_proof : Proof * Statement * nat := (mkProof "none" (mkStatement 0 0), mkStatement 0 0, 0).

Definition proved : (Proof * Statement * nat) * World :=
  outcome (prove Example.backend 1 "bump" [Example.Fv 5] None) Example.ready no_proof.

Definition checked : (Statement * nat) * World :=
  outcome (runAndCheck Example.backend 1 "bump" [Example.Fv 5]) Example.ready
          (mkStatement 0 0, 0).

End Scenario.

(** ** Other contract classes *)

Module Variants.

(** A contract whose [deploy] calls the one of [SmartContract] and then adds
    5 to the balance:
    [deploy(args) { super.deploy(args); this.balance.addInPlace(new UInt64(Field(5))); }] *)
Definition bodies (id : string) (this : iref) (args : list jsval) : M jsval :=
  if String.eqb id "deploy" then
    match args with
    | [JDeployArgs verificationKey zkappKey] =>
        SmartContract_deploy Example.backend this verificationKey zkappKey;;
        s ← self this;
        balance_addInPlace s 5;;
        mret JUndefined
    | _ => throw TypeError
    end
  else Example.bodies id this args.

Definition backend : Backend :=
  {| user_body := bodies;
     Party_hash := Example.hashParty;
     Ledger_hashTransactionChecked := Example.hashTransaction;
     Ledger_transactionStatement := Example.transactionStatement;
     Circuit_witness := Example.witness;
     assertPreconditionInvariants := fun _ => mret tt;
     cleanPreconditionsCache := fun _ => mret tt;
     foreign_prover := fun _ s => mret (mkProof "foreign" s);
     Pickles_verificationKey := fun _ => mkVK "vk" 42;
     PrivateKey_random := 7;
     toPublicKey := fun k => S k;
     Mina_accountCreationFee := 1000000000;
     Mina_getAccount_nonce := fun _ => mret 0;
     Field_of_string := fun _ => 0%Z;
     sign_with := fun _ _ => "signature";
     signFeePayer_with := fun _ _ _ _ => "feePayerSignature" |}.

Definition D : ZkappClass :=
  mkClass "D" None None None
    (<["deploy" := JUser "deploy"]> (<["bump" := JUser "bump"]> ∅)) ∅.



(** A contract whose prototype holds, besides a method, a property that is
    not a function. *)
Definition T : ZkappClass :=
  mkClass "T" None None None
    (<["version" := JStr "1"]> (<["bump" := JUser "bump"]> ∅)) ∅.

Definition tagged : World := mkWorld [] [] [T] None None 0.

End Variants.

(** * Properties *)

(** ** Stepping through the monad *)

Lemma bind_Ok {A C} (m : M A) (k : A -> M C) w a w' :
  m w = Ok (a, w') -> (m ≫= k) w = k a w'.
Proof. intros H. unfold mbind, M_bind, bind. by rewrite H. Qed.

Lemma bind_Throw {A C} (m : M A) (k : A -> M C) w e :
  m w = Throw e -> (m ≫= k) w = Throw e.
Proof. intros H. unfold mbind, M_bind, bind. by rewrite H. Qed.

Lemma bind_run_eq {A C} (m1 m2 : M A) (k : A -> M C) w1 w2 :
  m1 w1 = m2 w2 -> (m1 ≫= k) w1 = (m2 ≫= k) w2.
Proof. intros H. unfold mbind, M_bind, bind. by rewrite H. Qed.

Lemma bind_get {C} (k : World -> M C) w : (get ≫= k) w = k w w.
Proof. reflexivity. Qed.

Lemma bind_mret {A C} (a : A) (k : A -> M C) w : (mret a ≫= k) w = k a w.
Proof. reflexivity. Qed.

Lemma bind_modify {C} (f : World -> World) (k : unit -> M C) w :
  (modify f ≫= k) w = k tt (f w).
Proof. reflexivity. Qed.

Lemma bind_unit_mret (m : M unit) w : (m ≫= λ _, mret tt) w = m w.
Proof.
  unfold mbind, M_bind, bind. destruct (m w) as [[[] w']|e]; reflexivity.
Qed.

Lemma inCompile_run w :
  inCompile w =
  Ok (match mainContext w with Some ctx => ctx_inCompile ctx | None => false end, w).
Proof. reflexivity. Qed.

(** ** Dispatch outside a transaction *)

(** C3.  With no transaction-building session active and a context that is
    not compiling, the dispatch wrapper built by [wrapMethod] behaves exactly
    as the original body applied to the arguments before the flag position:
    same result, same final store (so nothing is attached to any party beyond
    what the body does), same failure. *)
Theorem wrapMethod_direct_outside_session
    (B : Backend) (method : jsval) (argsLength : nat) (ZkappClass : cref)
    (this : iref) (args : list jsval) (w : World) :
  currentTransaction w = None ->
  (forall ctx, mainContext w = Some ctx -> ctx_inCompile ctx = false) ->
  callFn B (wrapMethod method argsLength ZkappClass) this args w
  = callFn B method this (take argsLength args) w.
Proof.
  intros Htx Hctx. simpl. unfold wrappedMethod.
  rewrite bind_get, Htx. simpl.
  rewrite (bind_Ok _ _ _ _ _ (inCompile_run w)).
  destruct (mainContext w) as [ctx|] eqn:E; [|reflexivity].
  by rewrite (Hctx ctx eq_refl).
Qed.

Lemma wrapMethod_direct_outside_session_witness :
  callFn Example.backend (wrapMethod (JUser "bump") 1 0) 1 [Example.Fv 5] Example.ready
  = callFn Example.backend (JUser "bump") 1 (take 1 [Example.Fv 5]) Example.ready.
Proof.
  apply (wrapMethod_direct_outside_session Example.backend); [reflexivity|].
  intros ctx H. discriminate H.
Defined.

(** ** Statements *)

Lemma toStatement_run (B : Backend) self tail w p :
  partyHeap w !! self = Some p ->
  toStatement B self tail w
  = Ok (mkStatement (Ledger_hashTransactionChecked B (Party_hash B p)) (Party_hash B p), w).
Proof.
  intros H. unfold toStatement, readParty, mbind, M_bind, bind. by rewrite H.
Qed.

Lemma Field_assertEquals_refl x w : Field_assertEquals x x w = Ok (tt, w).
Proof. unfold Field_assertEquals. by rewrite Z.eqb_refl. Qed.

Lemma Field_assertEquals_ne x y w : x ≠ y -> Field_assertEquals x y w = Throw StatementMismatch.
Proof.
  intros H. unfold Field_assertEquals.
  destruct (Z.eqb_spec x y); [contradiction|reflexivity].
Qed.

(** [checkStatement] succeeds exactly when both digests match. *)
Lemma checkStatement_iff (B : Backend) s self tail w p :
  partyHeap w !! self = Some p ->
  checkStatement B s self tail w = Ok (tt, w)
  <-> atParty s = Party_hash B p
      /\ transaction s = Ledger_hashTransactionChecked B (Party_hash B p).
Proof.
  intros H. unfold checkStatement.
  rewrite (bind_Ok _ _ _ _ _ (toStatement_run B self tail w p H)). simpl.
  unfold Field_assertEquals, mbind, M_bind, bind.
  destruct (Z.eqb_spec (atParty s) (Party_hash B p)) as [E1|E1]; simpl.
  - destruct (Z.eqb_spec (transaction s)
                (Ledger_hashTransactionChecked B (Party_hash B p))) as [E2|E2]; simpl.
    + split; [by intros _|reflexivity].
    + split; [discriminate|]. intros [_ ?]. contradiction.
  - split; [discriminate|]. intros [? _]. contradiction.
Qed.

(** C7.  Round trip: for every party and tail, the statement that
    [toStatement] computes passes [checkStatement] against the same party and
    tail, whatever the hash functions are, and the store is left as it was. *)
Theorem checkStatement_toStatement
    (B : Backend) (self : pref) (tail : Field) (w : World) (p : Party) :
  partyHeap w !! self = Some p ->
  (s ← toStatement B self tail; checkStatement B s self tail) w = Ok (tt, w).
Proof.
  intros H.
  rewrite (bind_Ok _ _ _ _ _ (toStatement_run B self tail w p H)).
  by apply (checkStatement_iff B _ self tail w p H).
Qed.

Lemma checkStatement_toStatement_witness :
  (s ← toStatement Example.backend 0 0; checkStatement Example.backend s 0 0) Example.ready
  = Ok (tt, Example.ready).
Proof.
  apply (checkStatement_toStatement Example.backend 0 0 Example.ready
           (keepAll 3 AuthNone true)).
  reflexivity.
Defined.

(** ** Proving: the prover handle and the method index *)

Lemma findIndex_None {A} (f : A -> bool) (l : list A) :
  (forall x, x ∈ l -> f x = false) -> findIndex f l = None.
Proof.
  induction l as [|x l IH]; intros H; [reflexivity|]. simpl.
  rewrite (H x) by apply list_elem_of_here.
  rewrite IH; [reflexivity|]. intros y Hy. apply H. by apply list_elem_of_further.
Qed.

Lemma prove_NotCompiled (B : Backend) this name args w inst cls :
  zkapps w !! this = Some inst ->
  classes w !! constructor inst = Some cls ->
  _provers cls = None ->
  prove B this name args None w = Throw NotCompiled.
Proof.
  intros Hi Hc Hp. unfold prove, readInstance, readClass, mbind, M_bind, bind.
  by rewrite Hi, Hc, Hp.
Qed.

Lemma prove_MethodNotFound (B : Backend) this name args provers w inst cls ps ms :
  zkapps w !! this = Some inst ->
  classes w !! constructor inst = Some cls ->
  match provers with Some p => Some p | None => _provers cls end = Some ps ->
  _methods cls = Some ms ->
  name ∉ (methodName <$> ms) ->
  prove B this name args provers w = Throw MethodNotFound.
Proof.
  intros Hi Hc Hp Hm Hn. unfold prove, readInstance, readClass, mbind, M_bind, bind.
  rewrite Hi, Hc, Hp, Hm. rewrite findIndex_None; [reflexivity|].
  intros m Hin. apply String.eqb_neq. intros E.
  apply Hn. rewrite <- E. by apply list_elem_of_fmap_2.
Qed.

(** C5, as stated, fails where its two conditions meet: on a class that was
    never compiled, with no prover handles supplied, an unknown method name
    is reported as [NotCompiled], not as [MethodNotFound]. *)
Lemma prove_unknown_method_not_compiled :
  exists inst cls ms,
    zkapps Example.uncompiled !! 0 = Some inst
    /\ classes Example.uncompiled !! constructor inst = Some cls
    /\ _methods cls = Some ms
    /\ ("nope" ∉ (methodName <$> ms))
    /\ prove Example.backend 0 "nope" [] None Example.uncompiled = Throw NotCompiled
    /\ prove Example.backend 0 "nope" [] None Example.uncompiled ≠ Throw MethodNotFound.
Proof.
  eexists _, _, _. repeat split; try reflexivity.
  - vm_compute. intros H. repeat (inversion H as [|? ? ? H']; subst; clear H; rename H' into H).
  - vm_compute. discriminate.
Qed.

(** C5, amended.  [prove] fails with [NotCompiled] whenever the class has no
    stored provers and none are supplied; this check comes first.  When prover
    handles are available (supplied or stored) and the class has a method
    list, [prove] fails with [MethodNotFound] whenever the name is not among
    the registered methods.  Both failures happen before either pass runs. *)
Theorem prove_resolution_errors
    (B : Backend) (this : iref) (name : string) (args : list jsval)
    (provers : option (list Prover)) (w : World)
    (inst : SmartContractObj) (cls : ZkappClass) :
  zkapps w !! this = Some inst ->
  classes w !! constructor inst = Some cls ->
  (provers = None -> _provers cls = None ->
   prove B this name args provers w = Throw NotCompiled)
  /\ (forall ps ms,
        match provers with Some p => Some p | None => _provers cls end = Some ps ->
        _methods cls = Some ms ->
        name ∉ (methodName <$> ms) ->
        prove B this name args provers w = Throw MethodNotFound).
Proof.
  intros Hi Hc. split.
  - intros -> Hp. by eapply prove_NotCompiled.
  - intros ps ms Hp Hm Hn. by eapply prove_MethodNotFound.
Qed.

Lemma prove_resolution_errors_witness :
  prove Example.backend 0 "bump" [Example.Fv 5] None Example.uncompiled = Throw NotCompiled
  /\ prove Example.backend 1 "nope" [] None Example.ready = Throw MethodNotFound.
Proof.
  split.
  - eapply (proj1 (prove_resolution_errors Example.backend 0 "bump" [Example.Fv 5] None
                     Example.uncompiled _ _ eq_refl eq_refl)); reflexivity.
  - eapply (proj2 (prove_resolution_errors Example.backend 1 "nope" [] None
                     Example.ready _ _ eq_refl eq_refl)); try reflexivity.
    vm_compute. intros H.
    repeat (inversion H as [|? ? ? H']; subst; clear H; rename H' into H).
Defined.

(** ** The circuit body of a rule *)

(** [main] never looks at its statement: the only assertion on it compares
    [statement.transaction] with itself. *)
Lemma main_ignores_statement (B : Backend) (r : Rule) (s1 s2 : Statement) (w : World) :
  main B r s1 w = main B r s2 w.
Proof.
  unfold main. unfold mbind, M_bind, bind.
  destruct (getContext w) as [[ctx w1]|e]; [|reflexivity].
  destruct (main_witnesses B (rule_witnessTypes r) (ctx_witnesses ctx) w1)
    as [[ws w2]|e]; [|reflexivity].
  destruct (rule_func B r ws w2) as [[v w3]|e]; [|reflexivity].
  by rewrite !Field_assertEquals_refl.
Qed.

(** C1, evaluated.  Inside the prover's context, the circuit body of the
    rule for [bump] accepts a statement whose digests are not those of the
    self party it has just run on: [main] succeeds, although [checkStatement]
    on the same statement, party and tail fails with [StatementMismatch]. *)
Theorem main_accepts_mismatched_statement :
  let ctx := mkContext 0 false true (Some [Example.Fv 5]) in
  let rule := picklesRuleFromFunction "bump" 0 "bump" [Example.FieldT] in
  let statement := mkStatement 1 2 in
  succeeds (withContext ctx (main Example.backend rule statement) Example.ready) = true
  /\ withContext ctx
       (main Example.backend rule statement;;
        checkStatement Example.backend statement (ctx_self ctx) 0) Example.ready
     = Throw StatementMismatch.
Proof. split; vm_compute; reflexivity. Qed.

(** ** Witnesses *)

Lemma mapiM_ext {A C} (f g : A -> nat -> M C) (l : list A) :
  forall i w,
    (forall k x, l !! k = Some x -> f x (i + k) = g x (i + k)) ->
    mapiM f i l w = mapiM g i l w.
Proof.
  induction l as [|x l IH]; intros i w H; [reflexivity|].
  simpl. unfold mbind, M_bind, bind.
  pose proof (H 0 x eq_refl) as H0. rewrite Nat.add_0_r in H0. rewrite H0.
  destruct (g x i w) as [[y w1]|e]; [|reflexivity].
  rewrite (IH (S i) w1); [reflexivity|].
  intros k z Hk. specialize (H (S k) z Hk). by rewrite Nat.add_succ_r in H.
Qed.

Lemma mapiM_witness_each (B : Backend) types : forall ws pre w,
  length ws = length types ->
  mapiM (fun type i => Circuit_witness B type (default JUndefined ((pre ++ ws) !! i)))
        (length pre) types w
  = witness_each B types ws w.
Proof.
  induction types as [|t ts IH]; intros ws pre w Hlen.
  - by destruct ws.
  - destruct ws as [|v vs]; [discriminate|]. simpl in Hlen.
    simpl. rewrite lookup_app_r by lia. rewrite Nat.sub_diag. simpl.
    unfold mbind, M_bind, bind.
    destruct (Circuit_witness B t v w) as [[y w1]|e]; [|reflexivity].
    specialize (IH vs (pre ++ [v]) w1).
    rewrite length_app, Nat.add_1_r in IH. rewrite <- app_assoc in IH. simpl in IH.
    rewrite IH by lia. reflexivity.
Qed.

(** C4, as stated, fails: a method registered with two witness arguments is
    proved with three supplied values and the proof is produced; no arity
    error is raised anywhere. *)
Lemma prove_surplus_witness_succeeds :
  (exists m, (classes Example.ready !! 0 ≫= _methods) ≫= (.!! 1) = Some m
             /\ methodName m = "add2" /\ length (witnessArgs m) = 2)
  /\ succeeds (prove Example.backend 1 "add2"
                 [Example.Fv 5; Example.Fv 6; Example.Fv 7] None Example.ready) = true
  /\ prove Example.backend 1 "add2"
       [Example.Fv 5; Example.Fv 6; Example.Fv 7] None Example.ready
     ≠ Throw WitnessArityMismatch.
Proof.
  split; [|split].
  - eexists. vm_compute. repeat split; reflexivity.
  - vm_compute. reflexivity.
  - vm_compute. discriminate.
Qed.

Lemma main_witnesses_padded (B : Backend) types ws w :
  length ws <= length types ->
  main_witnesses B types (Some ws) w
  = witness_each B types (ws ++ replicate (length types - length ws) JUndefined) w.
Proof.
  intros Hlen. unfold main_witnesses.
  rewrite <- (mapiM_witness_each B types _ [] w)
    by (rewrite length_app, length_replicate; lia).
  apply mapiM_ext. intros k t Hk. simpl.
  apply lookup_lt_Some in Hk.
  destruct (decide (k < length ws)) as [Hlt|Hge].
  - by rewrite lookup_app_l.
  - rewrite (lookup_ge_None_2 ws k) by lia.
    rewrite lookup_app_r by lia.
    rewrite lookup_replicate_2 by lia. reflexivity.
Qed.

(** C4, amended.  For a method registered with n witness-typed arguments,
    the circuit body allocates witness i from supplied value i: with exactly n
    supplied values every declared position receives its value; with more
    than n supplied values no arity error is raised, the surplus is ignored
    and the allocation is the one of the first n values; with fewer than n
    the missing positions are handed to the witness allocator as
    [undefined], and no arity error is raised by the code either. *)
Theorem main_witnesses_arity
    (B : Backend) (types : list ParamType) (ws extra : list jsval) (w : World) :
  length ws = length types ->
  main_witnesses B types (Some ws) w = witness_each B types ws w
  /\ main_witnesses B types (Some (ws ++ extra)) w = main_witnesses B types (Some ws) w
  /\ (forall few,
        length few <= length types ->
        main_witnesses B types (Some few) w
        = witness_each B types
            (few ++ replicate (length types - length few) JUndefined) w).
Proof.
  intros Hlen. split; [|split].
  - unfold main_witnesses. by apply (mapiM_witness_each B types ws []).
  - unfold main_witnesses. apply mapiM_ext. intros k t Hk. simpl.
    rewrite lookup_app_l; [reflexivity|].
    rewrite Hlen. by eapply lookup_lt_Some.
  - intros few Hfew. by apply main_witnesses_padded.
Qed.

Lemma main_witnesses_arity_witness :
  main_witnesses Example.backend [Example.FieldT; Example.FieldT]
    (Some [Example.Fv 5; Example.Fv 6]) Example.ready
  = witness_each Example.backend [Example.FieldT; Example.FieldT]
      [Example.Fv 5; Example.Fv 6] Example.ready
  /\ main_witnesses Example.backend [Example.FieldT; Example.FieldT]
       (Some ([Example.Fv 5; Example.Fv 6] ++ [Example.Fv 7])) Example.ready
     = main_witnesses Example.backend [Example.FieldT; Example.FieldT]
         (Some [Example.Fv 5; Example.Fv 6]) Example.ready.
Proof.
  destruct (main_witnesses_arity Example.backend [Example.FieldT; Example.FieldT]
              [Example.Fv 5; Example.Fv 6] [Example.Fv 7] Example.ready)
    as (H1 & H2 & _); [reflexivity|].
  split; [exact H1|exact H2].
Defined.

(** ** Registration: [declareMethods] against the decorator *)

Lemma readClass_Some c w cls : classes w !! c = Some cls -> readClass c w = Ok (cls, w).
Proof. intros H. unfold readClass. by rewrite H. Qed.

Lemma readClass_None {A} c w (k : ZkappClass -> M A) :
  classes w !! c = None -> (readClass c ≫= k) w = Throw TypeError.
Proof. intros H. apply bind_Throw. unfold readClass. by rewrite H. Qed.

Lemma writeClass_Some c w cls x :
  classes w !! c = Some cls ->
  writeClass c x w = Ok (tt, set_classes (<[c := x]> (classes w)) w).
Proof. intros H. unfold writeClass. by rewrite H. Qed.

Lemma defineParamtypes_run c key types w cls :
  classes w !! c = Some cls ->
  defineParamtypes c key types w
  = Ok (tt, set_classes (<[c := set_paramtypes (<[key := types]> (paramtypes cls)) cls]>
                           (classes w)) w).
Proof.
  intros H. unfold defineParamtypes.
  rewrite (bind_Ok _ _ _ _ _ (readClass_Some c w cls H)).
  by apply writeClass_Some with cls.
Qed.

Lemma getOwnPropertyDescriptor_run c key w cls :
  classes w !! c = Some cls ->
  getOwnPropertyDescriptor c key w = Ok (prototype cls !! key, w).
Proof.
  intros H. unfold getOwnPropertyDescriptor.
  by rewrite (bind_Ok _ _ _ _ _ (readClass_Some c w cls H)).
Qed.

Lemma decorate_method_run c key types w cls :
  classes w !! c = Some cls ->
  decorate_method c key types w
  = register_with c key (prototype cls !! key)
      (set_classes (<[c := set_paramtypes (<[key := types]> (paramtypes cls)) cls]>
                      (classes w)) w).
Proof.
  intros H. unfold decorate_method.
  rewrite (bind_Ok _ _ _ _ _ (getOwnPropertyDescriptor_run c key w cls H)).
  by rewrite (bind_Ok _ _ _ _ _ (defineParamtypes_run c key types w cls H)).
Qed.

Lemma declare_one_run c key types w cls (k : M unit) :
  classes w !! c = Some cls ->
  (defineParamtypes c key types;;
   d ← getOwnPropertyDescriptor c key;
   descriptor ← method c key (default JUndefined d);
   defineProperty c key descriptor;; k) w
  = (register_with c key (prototype cls !! key);; k)
      (set_classes (<[c := set_paramtypes (<[key := types]> (paramtypes cls)) cls]>
                      (classes w)) w).
Proof.
  intros H.
  rewrite (bind_Ok _ _ _ _ _ (defineParamtypes_run c key types w cls H)).
  erewrite bind_Ok; last first.
  { apply getOwnPropertyDescriptor_run. simpl.
    apply list_lookup_insert_eq. by eapply lookup_lt_Some. }
  simpl. unfold register_with, mbind, M_bind, bind.
  match goal with |- context [method c key ?d ?w'] => destruct (method c key d w') as [[v w1]|e] end;
    reflexivity.
Qed.

(** [declareMethods] is the decorator applied to each entry in turn. *)
Lemma declareMethods_cons c key types rest w :
  declareMethods c ((key, types) :: rest) w
  = (decorate_method c key types;; declareMethods c rest) w.
Proof.
  simpl. destruct (classes w !! c) as [cls|] eqn:Hc.
  - rewrite (declare_one_run c key types w cls _ Hc).
    apply bind_run_eq. symmetry. by apply decorate_method_run.
  - unfold defineParamtypes, decorate_method, getOwnPropertyDescriptor.
    rewrite (bind_Throw _ _ w TypeError) by (by apply readClass_None).
    symmetry. apply bind_Throw. apply bind_Throw. by apply readClass_None.
Qed.

(** What a successful registration leaves on the class: the method
    descriptor appended to [_methods], the dispatch wrapper in place of the
    method, the parameter types recorded. *)
Lemma decorate_method_registers c key types w cls f witnessArgs proofArgs args :
  classes w !! c = Some cls ->
  has_own key reservedPropNames = false ->
  prototype cls !! key = Some f ->
  is_function f = true ->
  classify types 0 [] [] [] = Ok (witnessArgs, proofArgs, args) ->
  decorate_method c key types w
  = Ok (tt,
        set_classes
          (<[c := mkClass (class_name cls)
                    (Some (default [] (_methods cls)
                           ++ [mkMethodEntry key witnessArgs proofArgs args]))
                    (_provers cls) (_verificationKey cls)
                    (<[key := wrapMethod f (length args) c]> (prototype cls))
                    (<[key := types]> (paramtypes cls))]>
             (classes w))
          w).
Proof.
  intros Hc Hres Hf Hfun Hcl. unfold has_own in Hres. simpl in Hres.
  assert (Hlt : c < length (classes w)) by by eapply lookup_lt_Some.
  rewrite (decorate_method_run c key types w cls Hc).
  unfold register_with, method, defineProperty, readClass, writeClass,
    mbind, M_bind, bind, mret, M_ret, ret, throw.
  simpl. rewrite list_lookup_insert_eq by done. simpl.
  rewrite Hres, Hf. simpl. rewrite Hfun. simpl.
  rewrite lookup_insert_eq, Hcl. simpl.
  rewrite list_lookup_insert_eq by done. simpl.
  rewrite list_lookup_insert_eq by (by rewrite length_insert). simpl.
  rewrite list_lookup_insert_eq by (by rewrite length_insert). simpl.
  unfold set_classes. simpl. by rewrite !list_insert_insert_eq.
Qed.

(** Every declared type with the three field-conversion properties is a
    witness argument, numbered in order. *)
Lemma classify_witnesses types : forall i ws ps tbl,
  forallb isAsFields types = true ->
  classify types i ws ps tbl
  = Ok (ws ++ types, ps,
        tbl ++ imap (fun k _ => mkArg "witness" (length ws + k)) types).
Proof.
  induction types as [|t ts IH]; intros i ws ps tbl H.
  - simpl. by rewrite !app_nil_r.
  - simpl in H. apply andb_true_iff in H as [Ht Hts]. simpl. rewrite Ht.
    rewrite (IH (S i) _ _ _ Hts). rewrite <- !app_assoc. simpl.
    rewrite Nat.add_0_r. do 4 f_equal.
    apply imap_ext. intros k x _. simpl. rewrite length_app. simpl. f_equal. lia.
Qed.

(** C10.  Registering one method through [declareMethods] is the same
    computation as applying the [@method] decorator with the same
    parameter-type metadata: from every store both fail with the same error or
    both succeed with the same store, hence the same method descriptor
    appended to the class's list and the same dispatch wrapper installed. *)
Theorem declareMethods_decorate_method
    (SmartContract : cref) (key : string) (argumentTypes : list ParamType) (w : World) :
  declareMethods SmartContract [(key, argumentTypes)] w
  = decorate_method SmartContract key argumentTypes w.
Proof.
  rewrite declareMethods_cons. simpl. apply bind_unit_mret.
Qed.

(** ** The self party: ambient context, transaction memo, fresh party *)

Lemma strict_eq_Num a n : strict_eq a (Num n) = true <-> a = Num n.
Proof.
  destruct a as [m|]; simpl; [|split; discriminate].
  rewrite Nat.eqb_eq. split; [by intros ->|by intros [= ->]].
Qed.

Lemma strict_eq_NaN a : strict_eq NaN a = false.
Proof. reflexivity. Qed.

Lemma readInstance_Some i w inst : zkapps w !! i = Some inst -> readInstance i w = Ok (inst, w).
Proof. intros H. unfold readInstance. by rewrite H. Qed.

Lemma executionState_ambient this w ctx :
  mainContext w = Some ctx ->
  executionState this w = Ok (mkExecutionState (Num 0) (Num 0) (ctx_self ctx), w).
Proof. intros H. unfold executionState. rewrite bind_get, H. reflexivity. Qed.

Lemma executionState_outside this w inst :
  mainContext w = None ->
  currentTransaction w = None ->
  zkapps w !! this = Some inst ->
  executionState this w
  = Ok (mkExecutionState NaN NaN (length (partyHeap w)),
        set_partyHeap (partyHeap w ++ [keepAll (address inst) AuthNone true]) w).
Proof.
  intros Hc Ht Hi. unfold executionState. rewrite bind_get, Hc.
  rewrite (bind_Ok _ _ _ _ _ (readInstance_Some this w inst Hi)), Ht.
  reflexivity.
Qed.

Lemma executionState_hit this w inst tx es :
  mainContext w = None ->
  currentTransaction w = Some tx ->
  zkapps w !! this = Some inst ->
  _executionState inst = Some es ->
  transactionId es = Num (nextTransactionId w) ->
  executionState this w = Ok (es, w).
Proof.
  intros Hc Ht Hi He Hid. unfold executionState. rewrite bind_get, Hc.
  rewrite (bind_Ok _ _ _ _ _ (readInstance_Some this w inst Hi)), Ht, He.
  by rewrite (proj2 (strict_eq_Num _ _) Hid).
Qed.

Lemma executionState_miss this w inst tx :
  mainContext w = None ->
  currentTransaction w = Some tx ->
  zkapps w !! this = Some inst ->
  (forall es, _executionState inst = Some es ->
              transactionId es ≠ Num (nextTransactionId w)) ->
  executionState this w
  = Ok (mkExecutionState (Num (nextTransactionId w)) (Num (nextPartyIndex tx))
          (length (partyHeap w)),
        memoize_new this inst tx w).
Proof.
  intros Hc Ht Hi Hne. unfold executionState. rewrite bind_get, Hc.
  rewrite (bind_Ok _ _ _ _ _ (readInstance_Some this w inst Hi)), Ht.
  assert (Hcreate :
    (p ← selfParty (address inst);
     modify (set_currentTransaction
               (Some (mkCurrentTransaction (parties tx ++ [p]) (S (nextPartyIndex tx)))));;
     writeInstance this
       (mkSmartContract (address inst) (constructor inst)
          (Some (mkExecutionState (Num (nextTransactionId w)) (Num (nextPartyIndex tx)) p)));;
     mret (mkExecutionState (Num (nextTransactionId w)) (Num (nextPartyIndex tx)) p)) w
    = Ok (mkExecutionState (Num (nextTransactionId w)) (Num (nextPartyIndex tx))
            (length (partyHeap w)),
          memoize_new this inst tx w)).
  { unfold selfParty, newParty, writeInstance, modify, mbind, M_bind, bind. simpl.
    by rewrite Hi. }
  destruct (_executionState inst) as [es|] eqn:He; [|exact Hcreate].
  destruct (strict_eq (transactionId es) (Num (nextTransactionId w))) eqn:E; [|exact Hcreate].
  apply strict_eq_Num in E. by destruct (Hne es eq_refl).
Qed.

Lemma executionState_after_miss this w inst tx :
  mainContext w = None ->
  zkapps w !! this = Some inst ->
  executionState this (memoize_new this inst tx w)
  = Ok (mkExecutionState (Num (nextTransactionId w)) (Num (nextPartyIndex tx))
          (length (partyHeap w)),
        memoize_new this inst tx w).
Proof.
  intros Hc Hi.
  eapply executionState_hit;
    [exact Hc | reflexivity | simpl; apply list_lookup_insert_eq; by eapply lookup_lt_Some
    | reflexivity | reflexivity].
Qed.

Lemma self_run this w es w' :
  executionState this w = Ok (es, w') -> self this w = Ok (party es, w').
Proof. intros H. unfold self. by rewrite (bind_Ok _ _ _ _ _ H). Qed.

(** C6, as stated, fails when an ambient execution context is active during
    the session: the access of [self] returns the context's party, creates
    nothing, appends nothing to the transaction and memoizes nothing. *)
Lemma self_in_session_under_context_not_memoized :
  let w := Example.under_context in
  is_Some (currentTransaction w)
  /\ self 1 w = Ok (0, w)
  /\ (zkapps w !! 1 ≫= _executionState) = None
  /\ parties <$> currentTransaction w = Some [].
Proof. vm_compute. repeat split; eauto. Qed.

(** C6, amended.  Inside a transaction-building session with no ambient
    execution context active, an access of [self] leaves the party memoized on
    the instance under the session's transaction identifier.  When the
    instance holds no memo for that identifier (first access, or a memo of
    another transaction), the party is a new default one, different from every
    party that existed before, and it is appended to the transaction.  Every
    later access in the same session, from any store that kept the instance,
    returns the memoized party and changes nothing. *)
Theorem self_memoized_per_transaction
    (this : iref) (w : World) (inst : SmartContractObj) (tx : CurrentTransaction) :
  mainContext w = None ->
  currentTransaction w = Some tx ->
  zkapps w !! this = Some inst ->
  exists es w1 inst1,
    executionState this w = Ok (es, w1)
    /\ self this w = Ok (party es, w1)
    /\ zkapps w1 !! this = Some inst1
    /\ _executionState inst1 = Some es
    /\ transactionId es = Num (nextTransactionId w)
    /\ ((forall es0, _executionState inst = Some es0 ->
                     transactionId es0 ≠ Num (nextTransactionId w)) ->
        (forall p, p < length (partyHeap w) -> party es ≠ p)
        /\ partyHeap w1 = partyHeap w ++ [keepAll (address inst) AuthNone true]
        /\ partyHeap w1 !! party es = Some (keepAll (address inst) AuthNone true)
        /\ currentTransaction w1
           = Some (mkCurrentTransaction (parties tx ++ [party es]) (S (nextPartyIndex tx))))
    /\ (forall w2,
          mainContext w2 = None ->
          is_Some (currentTransaction w2) ->
          nextTransactionId w2 = nextTransactionId w ->
          zkapps w2 !! this = Some inst1 ->
          self this w2 = Ok (party es, w2)).
Proof.
  intros Hc Ht Hi.
  assert (Hlater : forall es inst1 w2,
    _executionState inst1 = Some es ->
    transactionId es = Num (nextTransactionId w) ->
    mainContext w2 = None ->
    is_Some (currentTransaction w2) ->
    nextTransactionId w2 = nextTransactionId w ->
    zkapps w2 !! this = Some inst1 ->
    self this w2 = Ok (party es, w2)).
  { intros es inst1 w2 He Hid Hc2 [tx2 Ht2] Hn Hi2. apply self_run.
    eapply executionState_hit; eauto. by rewrite Hn. }
  assert (Hmiss :
    (forall es0, _executionState inst = Some es0 ->
                 transactionId es0 ≠ Num (nextTransactionId w)) ->
    exists es w1 inst1,
      executionState this w = Ok (es, w1)
      /\ self this w = Ok (party es, w1)
      /\ zkapps w1 !! this = Some inst1
      /\ _executionState inst1 = Some es
      /\ transactionId es = Num (nextTransactionId w)
      /\ ((forall p, p < length (partyHeap w) -> party es ≠ p)
          /\ partyHeap w1 = partyHeap w ++ [keepAll (address inst) AuthNone true]
          /\ partyHeap w1 !! party es = Some (keepAll (address inst) AuthNone true)
          /\ currentTransaction w1
             = Some (mkCurrentTransaction (parties tx ++ [party es])
                       (S (nextPartyIndex tx))))).
  { intros Hne.
    pose proof (executionState_miss this w inst tx Hc Ht Hi Hne) as Hrun.
    eexists _, _, _. split; [exact Hrun|]. split; [by apply self_run|].
    split.
    { simpl. apply list_lookup_insert_eq. by eapply lookup_lt_Some. }
    split; [reflexivity|]. split; [reflexivity|]. simpl.
    split; [intros p Hp; lia|]. split; [reflexivity|]. split; [|reflexivity].
    rewrite lookup_app_r by lia. by rewrite Nat.sub_diag. }
  destruct (_executionState inst) as [es|] eqn:He.
  - destruct (decide (transactionId es = Num (nextTransactionId w))) as [Hid|Hid].
    + exists es, w, inst.
      pose proof (executionState_hit this w inst tx es Hc Ht Hi He Hid) as Hrun.
      split; [exact Hrun|]. split; [by apply self_run|].
      split; [exact Hi|]. split; [exact He|]. split; [exact Hid|]. split.
      * intros H. by destruct (H es eq_refl).
      * intros w2. by apply Hlater.
    + destruct Hmiss as (es1 & w1 & inst1 & H1 & H2 & H3 & H4 & H5 & H6).
      { intros es0 E. by injection E as <-. }
      exists es1, w1, inst1. repeat (split; [assumption|]). split; [by intros _|].
      intros w2. by apply Hlater.
  - destruct Hmiss as (es1 & w1 & inst1 & H1 & H2 & H3 & H4 & H5 & H6).
    { intros es0 E. discriminate E. }
    exists es1, w1, inst1. repeat (split; [assumption|]). split; [by intros _|].
    intros w2. by apply Hlater.
Qed.

Lemma self_memoized_per_transaction_witness :
  exists es w1,
    self 1 Example.in_session = Ok (party es, w1)
    /\ transactionId es = Num 0
    /\ self 1 w1 = Ok (party es, w1).
Proof.
  destruct (self_memoized_per_transaction 1 Example.in_session
              (mkSmartContract 9 0 None) (mkCurrentTransaction [] 0)
              eq_refl eq_refl eq_refl)
    as (es & w1 & inst1 & H1 & H2 & H3 & H4 & H5 & H6 & H7).
  exists es, w1. split; [exact H2|]. split; [exact H5|].
  destruct H6 as (_ & Hheap & _ & Htx); [intros es0 E; discriminate E|].
  apply H7; [|by rewrite Htx| |exact H3].
  - revert H1. unfold executionState. rewrite bind_get. simpl.
    vm_compute. by intros [= <- <-].
  - revert H1. vm_compute. by intros [= <- <-].
Defined.

(** C9.  With no ambient execution context and no transaction-building
    session, a read of [self] makes a new default party for the instance's
    address, under the identifier [NaN] that equals no transaction identifier;
    the instance, the (absent) transaction and the existing parties are left
    as they were.  Hence whatever is done to that party afterwards, the next
    read returns another party, again the default one. *)
Theorem self_outside_is_fresh
    (this : iref) (w : World) (inst : SmartContractObj) :
  mainContext w = None ->
  currentTransaction w = None ->
  zkapps w !! this = Some inst ->
  let p := length (partyHeap w) in
  let fresh := keepAll (address inst) AuthNone true in
  let w1 := set_partyHeap (partyHeap w ++ [fresh]) w in
  executionState this w = Ok (mkExecutionState NaN NaN p, w1)
  /\ self this w = Ok (p, w1)
  /\ (forall id, strict_eq NaN id = false)
  /\ zkapps w1 = zkapps w
  /\ currentTransaction w1 = None
  /\ (forall q x, partyHeap w !! q = Some x -> partyHeap w1 !! q = Some x)
  /\ partyHeap w1 !! p = Some fresh
  /\ (forall f : Party -> Party,
        exists w2 w3,
          updateParty p f w1 = Ok (tt, w2)
          /\ partyHeap w2 !! p = Some (f fresh)
          /\ self this w2 = Ok (S p, w3)
          /\ partyHeap w3 !! S p = Some fresh
          /\ zkapps w3 = zkapps w).
Proof.
  intros Hc Ht Hi p fresh w1.
  pose proof (executionState_outside this w inst Hc Ht Hi) as Hrun.
  assert (Hp : partyHeap w1 !! p = Some fresh).
  { subst w1 p. simpl. rewrite lookup_app_r by lia. by rewrite Nat.sub_diag. }
  split; [exact Hrun|]. split; [by apply (self_run _ _ _ _ Hrun)|].
  split; [reflexivity|]. split; [reflexivity|]. split; [exact Ht|].
  split; [|split; [exact Hp|]].
  - intros q x Hq. subst w1. simpl. by apply lookup_app_l_Some.
  - intros f.
    set (w2 := set_partyHeap (<[p := f fresh]> (partyHeap w1)) w1).
    assert (Hlen : length (partyHeap w2) = S p).
    { subst w2 w1 p. simpl. rewrite length_insert, length_app. simpl. lia. }
    exists w2, (set_partyHeap (partyHeap w2 ++ [fresh]) w2).
    split; [unfold updateParty; by rewrite Hp|].
    split.
    { subst w2. simpl. apply list_lookup_insert_eq. by eapply lookup_lt_Some. }
    split.
    { pose proof (executionState_outside this w2 inst Hc Ht Hi) as Hrun2.
      rewrite Hlen in Hrun2. by apply (self_run _ _ _ _ Hrun2). }
    split; [|reflexivity].
    change (partyHeap (set_partyHeap (partyHeap w2 ++ [fresh]) w2))
      with (partyHeap w2 ++ [fresh]).
    rewrite <- Hlen. rewrite lookup_app_r by lia. by rewrite Nat.sub_diag.
Qed.

Lemma self_outside_is_fresh_witness :
  self 1 Example.ready = Ok (1, set_partyHeap (partyHeap Example.ready ++ [keepAll 9 AuthNone true])
                                  Example.ready).
Proof.
  apply (self_outside_is_fresh 1 Example.ready (mkSmartContract 9 0 None)
           eq_refl eq_refl eq_refl).
Defined.

(** ** Dispatch inside a transaction *)

(** [!('kind' in auth || 'proof' in auth || 'signature' in auth)] holds of the
    empty authorization only. *)
Lemma auth_probe a :
  negb (auth_has "kind" a || auth_has "proof" a || auth_has "signature" a) = true
  <-> a = AuthNone.
Proof. destruct a; simpl; split; (reflexivity || discriminate). Qed.

(** In a session, [self] yields an existing party, and asking again yields the
    same party without changing the store. *)
Lemma self_in_session w this :
  is_Some (currentTransaction w) ->
  wf_self w this ->
  exists p w1 x,
    self this w = Ok (p, w1)
    /\ partyHeap w1 !! p = Some x
    /\ self this w1 = Ok (p, w1).
Proof.
  intros [tx Ht] Hwf. unfold wf_self in Hwf.
  destruct (mainContext w) as [ctx|] eqn:Hc.
  - destruct (lookup_lt_is_Some_2 _ _ Hwf) as [x Hx].
    pose proof (self_run _ _ _ _ (executionState_ambient this w ctx Hc)) as Hs.
    by exists (ctx_self ctx), w, x.
  - destruct Hwf as (inst & Hi & Hes).
    destruct (_executionState inst) as [es|] eqn:He.
    + destruct (decide (transactionId es = Num (nextTransactionId w))) as [Hid|Hid].
      * destruct (lookup_lt_is_Some_2 _ _ (Hes es eq_refl)) as [x Hx].
        pose proof (self_run _ _ _ _ (executionState_hit this w inst tx es Hc Ht Hi He Hid)) as Hs.
        by exists (party es), w, x.
      * assert (Hne : forall es0, _executionState inst = Some es0 ->
                                  transactionId es0 ≠ Num (nextTransactionId w)).
        { intros es0 E. rewrite He in E. by injection E as <-. }
        pose proof (self_run _ _ _ _ (executionState_miss this w inst tx Hc Ht Hi Hne)) as Hs.
        eexists _, _, _. split; [exact Hs|]. simpl. split.
        { rewrite lookup_app_r by lia. by rewrite Nat.sub_diag. }
        apply (self_run this (memoize_new this inst tx w)
                 (mkExecutionState (Num (nextTransactionId w)) (Num (nextPartyIndex tx))
                    (length (partyHeap w)))).
        by apply executionState_after_miss.
    + assert (Hne : forall es0, _executionState inst = Some es0 ->
                                transactionId es0 ≠ Num (nextTransactionId w)).
      { intros es0 E. rewrite He in E. discriminate E. }
      pose proof (self_run _ _ _ _ (executionState_miss this w inst tx Hc Ht Hi Hne)) as Hs.
      eexists _, _, _. split; [exact Hs|]. simpl. split.
      { rewrite lookup_app_r by lia. by rewrite Nat.sub_diag. }
      apply (self_run this (memoize_new this inst tx w)
               (mkExecutionState (Num (nextTransactionId w)) (Num (nextPartyIndex tx))
                  (length (partyHeap w)))).
      by apply executionState_after_miss.
Qed.

(** C2.  Inside a transaction-building session and not forced direct, the
    dispatch wrapper looks at the authorization of the pending party (the
    party that [self] yields, [x] in the store [w1] after that access).  If the
    party carries any authorization, the wrapper attaches nothing and runs the
    original body from [w1]; if it carries none, the wrapper stores exactly one
    lazy proof on it, made of the method, the arguments before the flag
    position and the contract class, and runs the original body from there.
    Either way the wrapper's outcome is the body's outcome. *)
Theorem wrapMethod_in_session
    (B : Backend) (method : jsval) (argsLength : nat) (ZkappClass : cref)
    (this : iref) (args : list jsval) (w : World) :
  is_Some (currentTransaction w) ->
  is_true (args !! argsLength) = false ->
  wf_self w this ->
  exists p w1 x,
    self this w = Ok (p, w1)
    /\ partyHeap w1 !! p = Some x
    /\ (authorization x ≠ AuthNone ->
        callFn B (wrapMethod method argsLength ZkappClass) this args w
        = callFn B method this (take argsLength args) w1)
    /\ (authorization x = AuthNone ->
        callFn B (wrapMethod method argsLength ZkappClass) this args w
        = callFn B method this (take argsLength args)
            (set_partyHeap
               (<[p := set_authorization
                         (AuthLazyProof method (take argsLength args) ZkappClass) x]>
                  (partyHeap w1))
               w1)).
Proof.
  intros Ht Hflag Hwf.
  destruct (self_in_session w this Ht Hwf) as (p & w1 & x & Hs & Hx & Hs').
  exists p, w1, x. split; [exact Hs|]. split; [exact Hx|].
  assert (Hstep : callFn B (wrapMethod method argsLength ZkappClass) this args w
    = ((if negb (auth_has "kind" (authorization x) || auth_has "proof" (authorization x)
                 || auth_has "signature" (authorization x))
        then s' ← self this;
             updateParty s' (set_authorization
                               (AuthLazyProof method (take argsLength args) ZkappClass))
        else mret tt);;
       callFn B method this (take argsLength args)) w1).
  { simpl. unfold wrappedMethod. rewrite bind_get.
    destruct Ht as [tx Ht]. rewrite Ht, Hflag. simpl.
    rewrite (bind_Ok _ _ _ _ _ Hs).
    erewrite bind_Ok; [reflexivity|]. unfold readParty. by rewrite Hx. }
  split.
  - intros Hauth. rewrite Hstep.
    destruct (negb _) eqn:E; [by apply auth_probe in E|]. reflexivity.
  - intros Hauth. rewrite Hstep.
    rewrite (proj2 (auth_probe _) Hauth).
    erewrite bind_Ok; [reflexivity|].
    rewrite (bind_Ok _ _ _ _ _ Hs'). unfold updateParty. by rewrite Hx.
Qed.

Lemma wrapMethod_in_session_witness :
  exists p w1 x,
    self 1 Example.in_session = Ok (p, w1)
    /\ partyHeap w1 !! p = Some x
    /\ authorization x = AuthNone
    /\ callFn Example.backend (wrapMethod (JUser "bump") 1 0) 1 [Example.Fv 5]
         Example.in_session
       = callFn Example.backend (JUser "bump") 1 (take 1 [Example.Fv 5])
           (set_partyHeap
              (<[p := set_authorization
                        (AuthLazyProof (JUser "bump") (take 1 [Example.Fv 5]) 0) x]>
                 (partyHeap w1))
              w1).
Proof.
  destruct (wrapMethod_in_session Example.backend (JUser "bump") 1 0 1 [Example.Fv 5]
              Example.in_session)
    as (p & w1 & x & Hs & Hx & _ & Hnone).
  - by eexists.
  - reflexivity.
  - exists (mkSmartContract 9 0 None). split; [reflexivity|]. intros es E. discriminate E.
  - exists p, w1, x. split; [exact Hs|]. split; [exact Hx|].
    assert (Ha : authorization x = AuthNone).
    { revert Hs Hx. vm_compute. intros [= <- <-]. vm_compute. by intros [= <-]. }
    split; [exact Ha|]. by apply Hnone.
Defined.

(** ** Deployment *)













(** * Further properties *)

(** ** Classification of declared arguments *)

Lemma classify_invalid types : forall i ws ps tbl,
  forallb isAsFields types = false ->
  exists j t,
    types !! j = Some t
    /\ isAsFields t = false
    /\ (forall k u, k < j -> types !! k = Some u -> isAsFields u = true)
    /\ classify types i ws ps tbl = Throw (InvalidArgument (i + j)).
Proof.
  induction types as [|t ts IH]; intros i ws ps tbl H; [discriminate|].
  simpl in H. destruct (isAsFields t) eqn:Ht; simpl in H.
  - destruct (IH (S i) (ws ++ [t]) ps (tbl ++ [mkArg "witness" (length ws)]) H)
      as (j & u & Hj & Hu & Hbefore & Hrun).
    exists (S j), u. split; [exact Hj|]. split; [exact Hu|]. split.
    + intros k v Hk Hv. destruct k as [|k]; simpl in Hv.
      * by injection Hv as <-.
      * apply (Hbefore k v); [lia|exact Hv].
    + simpl. rewrite Ht. rewrite Hrun. f_equal. f_equal. lia.
  - exists 0, t. split; [reflexivity|]. split; [exact Ht|]. split.
    + intros k u Hk. lia.
    + simpl. rewrite Ht. by rewrite Nat.add_0_r.
Qed.

Lemma classify_ok_iff (types wa pa : list ParamType) (tbl : list ArgEntry) :
  classify types 0 [] [] [] = Ok (wa, pa, tbl)
  <-> forallb isAsFields types = true
      /\ wa = types /\ pa = []
      /\ tbl = imap (fun k _ => mkArg "witness" k) types.
Proof.
  split.
  - intros Hrun. destruct (forallb isAsFields types) eqn:Hall.
    + rewrite (classify_witnesses types 0 [] [] [] Hall) in Hrun. simpl in Hrun.
      injection Hrun as <- <- <-. done.
    + destruct (classify_invalid types 0 [] [] [] Hall) as (j & t & _ & _ & _ & Hthrow).
      rewrite Hthrow in Hrun. discriminate Hrun.
  - intros (Hall & -> & -> & ->). by rewrite (classify_witnesses types 0 [] [] [] Hall).
Qed.

Lemma classify_first_invalid (types : list ParamType) (j : nat) (t : ParamType) :
  types !! j = Some t ->
  isAsFields t = false ->
  (forall k u, k < j -> types !! k = Some u -> isAsFields u = true) ->
  classify types 0 [] [] [] = Throw (InvalidArgument j).
Proof.
  intros Hj Ht Hbefore.
  assert (Hall : forallb isAsFields types = false).
  { apply not_true_is_false. intros Hall.
    rewrite forallb_forall in Hall.
    assert (isAsFields t = true) as E.
    { apply Hall. apply list_elem_of_In. by eapply list_elem_of_lookup_2. }
    congruence. }
  destruct (classify_invalid types 0 [] [] [] Hall) as (j' & t' & Hj' & Ht' & Hb' & Hrun).
  rewrite Hrun. simpl.
  destruct (Nat.lt_trichotomy j j') as [Hlt|[->|Hgt]]; [|reflexivity|].
  - pose proof (Hb' j t Hlt Hj). congruence.
  - pose proof (Hbefore j' t' Hgt Hj'). congruence.
Qed.

(** ** Registration: outcomes *)

Lemma bind_assoc_run {A C D} (m : M A) (k : A -> M C) (k' : C -> M D) w :
  ((m ≫= k) ≫= k') w = (m ≫= fun a => k a ≫= k') w.
Proof.
  unfold mbind, M_bind, bind. destruct (m w) as [[a w1]|e]; reflexivity.
Qed.

Lemma method_run c key d w cls :
  classes w !! c = Some cls ->
  method c key d w
  = if has_own key reservedPropNames then Throw ReservedName
    else if negb (is_function (default JUndefined (prototype cls !! key)))
    then Throw NotAFunction
    else match paramtypes cls !! key with
         | None => Throw TypeError
         | Some paramTypes =>
             match classify paramTypes 0 [] [] [] with
             | Throw e => Throw e
             | Ok (witnessArgs, proofArgs, args) =>
                 Ok (JWrapped d (length args) c,
                     set_classes
                       (<[c := set_methods
                                 (Some (default [] (_methods cls)
                                        ++ [mkMethodEntry key witnessArgs proofArgs args]))
                                 cls]> (classes w)) w)
             end
         end.
Proof.
  intros Hc. unfold method. rewrite (bind_Ok _ _ _ _ _ (readClass_Some c w cls Hc)).
  destruct (has_own key reservedPropNames); [reflexivity|].
  destruct (negb _); [reflexivity|].
  destruct (paramtypes cls !! key) as [types|]; [|reflexivity].
  destruct (classify types 0 [] [] []) as [[[wa pa] tbl]|e]; [|reflexivity].
  unfold writeClass, mbind, M_bind, bind. by rewrite Hc.
Qed.

Lemma declareMethods_head_run c key types rest w cls :
  classes w !! c = Some cls ->
  declareMethods c ((key, types) :: rest) w
  = (register_with c key (prototype cls !! key);; declareMethods c rest)
      (set_classes (<[c := set_paramtypes (<[key := types]> (paramtypes cls)) cls]>
                      (classes w)) w).
Proof. intros Hc. simpl. by apply declare_one_run. Qed.

(** X2.  [declareMethods] rejects an entry in this order: a reserved name
    ([_methods], [_]) with [ReservedName], whatever the prototype holds;
    otherwise a name under which the prototype holds a property of its own
    that is not a function with [NotAFunction]; otherwise, for a function of
    the prototype's own, the first declared type, by index, that lacks one of
    [toFields], [ofFields], [sizeInFields] with [InvalidArgument]. *)
Theorem declareMethods_rejects
    (c : cref) (key : string) (types : list ParamType)
    (rest : list (string * list ParamType)) (w : World) (cls : ZkappClass) :
  classes w !! c = Some cls ->
  (has_own key reservedPropNames = true ->
   declareMethods c ((key, types) :: rest) w = Throw ReservedName)
  /\ (forall v,
        has_own key reservedPropNames = false ->
        prototype cls !! key = Some v ->
        is_function v = false ->
        declareMethods c ((key, types) :: rest) w = Throw NotAFunction)
  /\ (forall f j t,
        has_own key reservedPropNames = false ->
        prototype cls !! key = Some f ->
        is_function f = true ->
        types !! j = Some t ->
        isAsFields t = false ->
        (forall k u, k < j -> types !! k = Some u -> isAsFields u = true) ->
        declareMethods c ((key, types) :: rest) w = Throw (InvalidArgument j)).
Proof.
  intros Hc.
  assert (Hlt : c < length (classes w)) by by eapply lookup_lt_Some.
  assert (Hstep : forall e,
    method c key (default JUndefined (prototype cls !! key))
      (set_classes (<[c := set_paramtypes (<[key := types]> (paramtypes cls)) cls]>
                      (classes w)) w) = Throw e ->
    declareMethods c ((key, types) :: rest) w = Throw e).
  { intros e He. rewrite (declareMethods_head_run c key types rest w cls Hc).
    apply bind_Throw. unfold register_with. by apply bind_Throw. }
  assert (Hm := method_run c key (default JUndefined (prototype cls !! key))
                  (set_classes (<[c := set_paramtypes (<[key := types]> (paramtypes cls)) cls]>
                                  (classes w)) w)
                  (set_paramtypes (<[key := types]> (paramtypes cls)) cls)).
  simpl in Hm. rewrite list_lookup_insert_eq in Hm by done. specialize (Hm eq_refl).
  rewrite lookup_insert_eq in Hm.
  split; [|split].
  - intros Hres. apply Hstep. rewrite Hm. unfold has_own in Hres. simpl in Hres.
    by rewrite Hres.
  - intros v Hres Hv Hfun. apply Hstep. rewrite Hm. unfold has_own in Hres. simpl in Hres.
    rewrite Hres, Hv. simpl. by rewrite Hfun.
  - intros f j t Hres Hf Hfun Hj Ht Hbefore. apply Hstep. rewrite Hm.
    unfold has_own in Hres. simpl in Hres. rewrite Hres, Hf. simpl. rewrite Hfun. simpl.
    by rewrite (classify_first_invalid types j t Hj Ht Hbefore).
Qed.

Lemma declareMethods_head_registers c key types rest w cls f :
  classes w !! c = Some cls ->
  has_own key reservedPropNames = false ->
  prototype cls !! key = Some f ->
  is_function f = true ->
  forallb isAsFields types = true ->
  declareMethods c ((key, types) :: rest) w
  = declareMethods c rest
      (set_classes (<[c := registered c key types f cls]> (classes w)) w).
Proof.
  intros Hc Hres Hf Hfun Hall.
  rewrite declareMethods_cons.
  erewrite bind_Ok; [reflexivity|].
  rewrite (decorate_method_registers c key types w cls f types []
             (imap (fun k _ => mkArg "witness" k) types) Hc Hres Hf Hfun).
  - unfold registered. by rewrite length_imap.
  - by rewrite (classify_witnesses types 0 [] [] [] Hall).
Qed.

(** X1.  Registering a method that the prototype holds as a function of
    its own, under a name that is not reserved and with declared types that
    are all field-representable, succeeds.  Afterwards the method list read
    from the class is the one read before followed by one descriptor (the
    name, the types as witness arguments, no proof argument, one argument
    entry per type numbered in order); the prototype holds under the name the
    dispatch wrapper over the original function, with [argsLength] the number
    of declared types, and its other properties are as before; the declared
    types are recorded under the name. *)
Theorem declareMethods_registers
    (c : cref) (key : string) (types : list ParamType) (w : World)
    (cls : ZkappClass) (f : jsval) :
  classes w !! c = Some cls ->
  has_own key reservedPropNames = false ->
  prototype cls !! key = Some f ->
  is_function f = true ->
  forallb isAsFields types = true ->
  exists w' cls',
    declareMethods c [(key, types)] w = Ok (tt, w')
    /\ classes w' !! c = Some cls'
    /\ _methods cls'
       = Some (default [] (_methods cls)
               ++ [mkMethodEntry key types []
                     (imap (fun k _ => mkArg "witness" k) types)])
    /\ prototype cls' !! key = Some (JWrapped f (length types) c)
    /\ (forall k, k <> key -> prototype cls' !! k = prototype cls !! k)
    /\ paramtypes cls' !! key = Some types.
Proof.
  intros Hc Hres Hf Hfun Hall.
  assert (Hlt : c < length (classes w)) by by eapply lookup_lt_Some.
  exists (set_classes (<[c := registered c key types f cls]> (classes w)) w),
         (registered c key types f cls).
  split.
  { by rewrite (declareMethods_head_registers c key types [] w cls f Hc Hres Hf Hfun Hall). }
  split; [simpl; by apply list_lookup_insert_eq|].
  split; [reflexivity|].
  split; [simpl; by rewrite lookup_insert_eq|].
  split; [intros k Hk; simpl; by rewrite lookup_insert_ne|].
  simpl. by rewrite lookup_insert_eq.
Qed.

(** X3.  On an existing class, [declareMethods] of one entry succeeds exactly
    when the name is not reserved, the prototype holds a function under it and
    every declared type is field-representable; there is no other way to
    fail. *)
Theorem declareMethods_succeeds_iff
    (c : cref) (key : string) (types : list ParamType) (w : World) (cls : ZkappClass) :
  classes w !! c = Some cls ->
  succeeds (declareMethods c [(key, types)] w) = true
  <-> has_own key reservedPropNames = false
      /\ is_function (default JUndefined (prototype cls !! key)) = true
      /\ forallb isAsFields types = true.
Proof.
  intros Hc. split.
  - intros Hok.
    destruct (has_own key reservedPropNames) eqn:Hres.
    { rewrite (declareMethods_head_run c key types [] w cls Hc) in Hok.
      assert (Hlt : c < length (classes w)) by by eapply lookup_lt_Some.
      unfold register_with in Hok.
      rewrite bind_assoc_run in Hok. erewrite bind_Throw in Hok; [discriminate|].
      erewrite method_run; [|simpl; by apply list_lookup_insert_eq].
      by rewrite Hres. }
    destruct (is_function (default JUndefined (prototype cls !! key))) eqn:Hfun.
    + destruct (forallb isAsFields types) eqn:Hall; [done|].
      destruct (classify_invalid types 0 [] [] [] Hall) as (j & t & Hj & Ht & Hb & Hrun).
      rewrite (declareMethods_head_run c key types [] w cls Hc) in Hok.
      assert (Hlt : c < length (classes w)) by by eapply lookup_lt_Some.
      unfold register_with in Hok.
      rewrite bind_assoc_run in Hok. erewrite bind_Throw in Hok; [discriminate|].
      erewrite method_run; [|simpl; by apply list_lookup_insert_eq].
      rewrite Hres. simpl. rewrite Hfun. simpl. rewrite lookup_insert_eq. by rewrite Hrun.
    + rewrite (declareMethods_head_run c key types [] w cls Hc) in Hok.
      assert (Hlt : c < length (classes w)) by by eapply lookup_lt_Some.
      unfold register_with in Hok.
      rewrite bind_assoc_run in Hok. erewrite bind_Throw in Hok; [discriminate|].
      erewrite method_run; [|simpl; by apply list_lookup_insert_eq].
      rewrite Hres. simpl. by rewrite Hfun.
  - intros (Hres & Hfun & Hall).
    destruct (prototype cls !! key) as [f|] eqn:Hf; [|discriminate].
    by rewrite (declareMethods_head_registers c key types [] w cls f Hc Hres Hf Hfun Hall).
Qed.

(** X5.  Registration is not idempotent: declaring the same method twice
    appends its descriptor twice and wraps the dispatch wrapper in a second
    dispatch wrapper. *)
Theorem declareMethods_twice_wraps_twice
    (c : cref) (key : string) (types : list ParamType) (w : World)
    (cls : ZkappClass) (f : jsval) :
  classes w !! c = Some cls ->
  has_own key reservedPropNames = false ->
  prototype cls !! key = Some f ->
  is_function f = true ->
  forallb isAsFields types = true ->
  let entry := mkMethodEntry key types [] (imap (fun k _ => mkArg "witness" k) types) in
  declareMethods c [(key, types); (key, types)] w
  = Ok (tt,
        set_classes
          (<[c := mkClass (class_name cls)
                    (Some (default [] (_methods cls) ++ [entry; entry]))
                    (_provers cls) (_verificationKey cls)
                    (<[key := wrapMethod (wrapMethod f (length types) c) (length types) c]>
                       (prototype cls))
                    (<[key := types]> (paramtypes cls))]>
             (classes w)) w).
Proof.
  intros Hc Hres Hf Hfun Hall entry.
  assert (Hlt : c < length (classes w)) by by eapply lookup_lt_Some.
  rewrite (declareMethods_head_registers c key types _ w cls f Hc Hres Hf Hfun Hall).
  rewrite (declareMethods_head_registers c key types [] _ (registered c key types f cls)
             (wrapMethod f (length types) c)); try done.
  - simpl. unfold set_classes. simpl. rewrite list_insert_insert_eq.
    unfold registered. simpl. rewrite !insert_insert_eq. rewrite <- app_assoc. reflexivity.
  - simpl. by apply list_lookup_insert_eq.
  - simpl. by rewrite lookup_insert_eq.
Qed.

(** ** The dispatch wrapper: the other branches *)

Lemma wrappedMethod_direct_run (B : Backend) m n c this args w :
  bool_decide (currentTransaction w = None) || is_true (args !! n) = true ->
  callFn B (wrapMethod m n c) this args w
  = (cmp ← inCompile;
     if (cmp : bool) then
       result ← callFn B m this (take n args);
       s ← self this;
       assertPreconditionInvariants B s;;
       mret result
     else callFn B m this (take n args)) w.
Proof.
  intros H. simpl. unfold wrappedMethod. rewrite bind_get. by rewrite H.
Qed.

(** X6.  With [true] at the flag position, right after the declared
    arguments, and a context that is not compiling, the wrapper calls the
    original body directly, also inside a transaction-building session: it
    does not read [self] and attaches no lazy proof. *)
Theorem wrapMethod_forced_direct
    (B : Backend) (method : jsval) (argsLength : nat) (ZkappClass : cref)
    (this : iref) (args : list jsval) (w : World) :
  args !! argsLength = Some (JBool true) ->
  (forall ctx, mainContext w = Some ctx -> ctx_inCompile ctx = false) ->
  callFn B (wrapMethod method argsLength ZkappClass) this args w
  = callFn B method this (take argsLength args) w.
Proof.
  intros Hflag Hctx.
  rewrite wrappedMethod_direct_run by (rewrite Hflag; apply orb_true_r).
  rewrite (bind_Ok _ _ _ _ _ (inCompile_run w)).
  destruct (mainContext w) as [ctx|] eqn:E; [|reflexivity].
  by rewrite (Hctx ctx eq_refl).
Qed.

(** X7.  In compile mode, outside a session or forced direct, a failure of
    the body is the wrapper's failure; after a successful body the
    precondition invariants are checked on the context's party, their
    violation makes the call fail although the body succeeded, and otherwise
    the body's result is returned. *)
Theorem wrapMethod_in_compile
    (B : Backend) (method : jsval) (argsLength : nat) (ZkappClass : cref)
    (this : iref) (args : list jsval) (w : World) (ctx : Context) :
  currentTransaction w = None \/ args !! argsLength = Some (JBool true) ->
  mainContext w = Some ctx ->
  ctx_inCompile ctx = true ->
  (forall e,
     callFn B method this (take argsLength args) w = Throw e ->
     callFn B (wrapMethod method argsLength ZkappClass) this args w = Throw e)
  /\ (forall v w1 ctx1,
        callFn B method this (take argsLength args) w = Ok (v, w1) ->
        mainContext w1 = Some ctx1 ->
        callFn B (wrapMethod method argsLength ZkappClass) this args w
        = match assertPreconditionInvariants B (ctx_self ctx1) w1 with
          | Ok (_, w2) => Ok (v, w2)
          | Throw e => Throw e
          end).
Proof.
  intros Hdirect Hc Hcompile.
  assert (Hrun : callFn B (wrapMethod method argsLength ZkappClass) this args w
    = (result ← callFn B method this (take argsLength args);
       s ← self this;
       assertPreconditionInvariants B s;;
       mret result) w).
  { rewrite wrappedMethod_direct_run.
    - rewrite (bind_Ok _ _ _ _ _ (inCompile_run w)). by rewrite Hc, Hcompile.
    - destruct Hdirect as [->| ->]; [reflexivity|apply orb_true_r]. }
  split.
  - intros e He. rewrite Hrun. by apply bind_Throw.
  - intros v w1 ctx1 Hv Hc1. rewrite Hrun.
    rewrite (bind_Ok _ _ _ _ _ Hv).
    rewrite (bind_Ok _ _ _ _ _ (self_run _ _ _ _ (executionState_ambient this w1 ctx1 Hc1))).
    simpl. unfold mbind, M_bind, bind.
    destruct (assertPreconditionInvariants B (ctx_self ctx1) w1) as [[[] w2]|e]; reflexivity.
Qed.

(** X8.  The wrapper reads the first [argsLength] arguments and the flag
    position only: two argument lists that agree on their first
    [argsLength + 1] entries give the same outcome. *)
Theorem wrapMethod_reads_prefix_and_flag
    (B : Backend) (method : jsval) (argsLength : nat) (ZkappClass : cref)
    (this : iref) (args1 args2 : list jsval) (w : World) :
  take (S argsLength) args1 = take (S argsLength) args2 ->
  callFn B (wrapMethod method argsLength ZkappClass) this args1 w
  = callFn B (wrapMethod method argsLength ZkappClass) this args2 w.
Proof.
  intros H.
  assert (Htake : take argsLength args1 = take argsLength args2).
  { assert (E : forall l : list jsval,
               take argsLength l = take argsLength (take (S argsLength) l)).
    { intros l. rewrite take_take. f_equal. lia. }
    rewrite (E args1), (E args2). by rewrite H. }
  assert (Hflag : args1 !! argsLength = args2 !! argsLength).
  { rewrite <- (lookup_take_lt args1 (S argsLength) argsLength) by lia.
    rewrite <- (lookup_take_lt args2 (S argsLength) argsLength) by lia. by rewrite H. }
  simpl. unfold wrappedMethod. by rewrite Htake, Hflag.
Qed.

(** X9.  After a method has been registered with n declared types, calling
    it on an instance of the class with n arguments followed by [true], as
    Pass 1 of [prove] does, runs the original function on exactly these n
    arguments (outside compile mode). *)
Theorem registered_method_call_forced
    (B : Backend) (c : cref) (key : string) (types : list ParamType) (w : World)
    (cls : ZkappClass) (f : jsval) (this : iref) (inst : SmartContractObj)
    (args : list jsval) :
  classes w !! c = Some cls ->
  has_own key reservedPropNames = false ->
  prototype cls !! key = Some f ->
  is_function f = true ->
  forallb isAsFields types = true ->
  zkapps w !! this = Some inst ->
  constructor inst = c ->
  (forall ctx, mainContext w = Some ctx -> ctx_inCompile ctx = false) ->
  length args = length types ->
  (declareMethods c [(key, types)];; callMethod B this key (args ++ [JBool true])) w
  = (declareMethods c [(key, types)];; callFn B f this args) w.
Proof.
  intros Hc Hres Hf Hfun Hall Hi Hcon Hctx Hlen.
  assert (Hlt : c < length (classes w)) by by eapply lookup_lt_Some.
  pose proof (declareMethods_head_registers c key types [] w cls f Hc Hres Hf Hfun Hall)
    as Hreg. simpl in Hreg.
  assert (Hreg' : declareMethods c [(key, types)] w
    = Ok (tt, set_classes (<[c := registered c key types f cls]> (classes w)) w)).
  { exact Hreg. }
  rewrite !(bind_Ok _ _ _ _ _ Hreg').
  unfold callMethod.
  rewrite (bind_Ok _ _ _ _ _
             (readInstance_Some this
                (set_classes (<[c := registered c key types f cls]> (classes w)) w)
                inst Hi)).
  erewrite bind_Ok; last first.
  { apply readClass_Some. rewrite Hcon. simpl. by apply list_lookup_insert_eq. }
  simpl. rewrite lookup_insert_eq. simpl.
  change (wrappedMethod B (callFn B f) f (length types) c this (args ++ [JBool true]))
    with (callFn B (wrapMethod f (length types) c) this (args ++ [JBool true])).
  rewrite wrappedMethod_direct_run; last first.
  { rewrite <- Hlen. rewrite list_lookup_middle by done. apply orb_true_r. }
  erewrite bind_Ok; [|apply inCompile_run]. simpl.
  rewrite <- Hlen, take_app_length.
  destruct (mainContext w) as [ctx|] eqn:E; [|reflexivity].
  by rewrite (Hctx ctx eq_refl).
Qed.

(** ** The self party: an invariant of the store *)

(** X10.  On an existing instance an access of [self] always succeeds and
    keeps the store consistent: the party it returns exists, every party
    reference of the context, of the memos and of the transaction still
    exists, the transaction's next index is still the number of its parties,
    and no party that existed before is changed. *)
Theorem self_keeps_refs_ok (this : iref) (w : World) (inst : SmartContractObj) :
  refs_ok w ->
  zkapps w !! this = Some inst ->
  exists p w1,
    self this w = Ok (p, w1)
    /\ refs_ok w1
    /\ p < length (partyHeap w1)
    /\ (forall q x, partyHeap w !! q = Some x -> partyHeap w1 !! q = Some x)
    /\ mainContext w1 = mainContext w
    /\ nextTransactionId w1 = nextTransactionId w.
Proof.
  intros Hok Hi. pose proof Hok as (Hctx & Hmemo & Htx).
  destruct (mainContext w) as [ctx|] eqn:Hc.
  { exists (ctx_self ctx), w.
    split; [exact (self_run _ _ _ _ (executionState_ambient this w ctx Hc))|].
    split; [exact Hok|]. split; [by apply Hctx|]. done. }
  destruct (currentTransaction w) as [tx|] eqn:Ht.
  - assert (Hmiss :
      (forall es0, _executionState inst = Some es0 ->
                   transactionId es0 ≠ Num (nextTransactionId w)) ->
      exists p w1,
        self this w = Ok (p, w1) /\ refs_ok w1 /\ p < length (partyHeap w1)
        /\ (forall q x, partyHeap w !! q = Some x -> partyHeap w1 !! q = Some x)
        /\ mainContext w1 = None
        /\ nextTransactionId w1 = nextTransactionId w).
    { intros Hne. eexists _, _.
      split; [apply self_run; by apply executionState_miss|].
      destruct (Htx tx eq_refl) as [Hall Hidx].
      split; [|split; [|split; [|split]]].
      - split; [|split].
        + simpl. intros ctx E. rewrite Hc in E. discriminate E.
        + simpl. intros i inst' es Hi' He. rewrite length_app. simpl.
          destruct (decide (i = this)) as [->|Hne'].
          * rewrite list_lookup_insert_eq in Hi' by by eapply lookup_lt_Some.
            injection Hi' as <-. simpl in He. injection He as <-. simpl. lia.
          * rewrite list_lookup_insert_ne in Hi' by done.
            pose proof (Hmemo i inst' es Hi' He). lia.
        + simpl. intros tx' [= <-]. simpl. split.
          * apply Forall_app. split.
            -- eapply Forall_impl; [exact Hall|]. simpl. intros q Hq.
               rewrite length_app. simpl. lia.
            -- apply Forall_singleton. rewrite length_app. simpl. lia.
          * rewrite length_app. simpl. lia.
      - simpl. rewrite length_app. simpl. lia.
      - simpl. intros q x Hq. by apply lookup_app_l_Some.
      - simpl. exact Hc.
      - reflexivity. }
    destruct (_executionState inst) as [es|] eqn:He.
    + destruct (decide (transactionId es = Num (nextTransactionId w))) as [Hid|Hid].
      * exists (party es), w.
        split; [apply self_run; by eapply executionState_hit|].
        split; [exact Hok|]. split; [by eapply Hmemo|]. done.
      * apply Hmiss. intros es0 [= <-]. exact Hid.
    + apply Hmiss. intros es0 E. discriminate E.
  - eexists _, _.
    split; [apply self_run; by apply executionState_outside|].
    split; [|split; [|split; [|split]]].
    + split; [|split]; simpl.
      * intros ctx E. rewrite Hc in E. discriminate E.
      * intros i inst' es Hi' He. rewrite length_app. simpl.
        pose proof (Hmemo i inst' es Hi' He). lia.
      * intros tx E. rewrite Ht in E. discriminate E.
    + simpl. rewrite length_app. simpl. lia.
    + simpl. intros q x Hq. by apply lookup_app_l_Some.
    + simpl. exact Hc.
    + reflexivity.
Qed.

(** ** Statements and witnesses *)

(** X11.  [checkStatement] succeeds, changing nothing, when both digests of
    the statement are those recomputed from the party, and fails with
    [StatementMismatch] in every other case, whatever the tail. *)
Theorem checkStatement_outcome
    (B : Backend) (s : Statement) (self : pref) (tail : Field) (w : World) (p : Party) :
  partyHeap w !! self = Some p ->
  (atParty s = Party_hash B p
   /\ transaction s = Ledger_hashTransactionChecked B (Party_hash B p) ->
   checkStatement B s self tail w = Ok (tt, w))
  /\ (~ (atParty s = Party_hash B p
         /\ transaction s = Ledger_hashTransactionChecked B (Party_hash B p)) ->
      checkStatement B s self tail w = Throw StatementMismatch).
Proof.
  intros H. split.
  - intros Heq. by apply (checkStatement_iff B s self tail w p H).
  - intros Hne. unfold checkStatement.
    rewrite (bind_Ok _ _ _ _ _ (toStatement_run B self tail w p H)). simpl.
    destruct (decide (atParty s = Party_hash B p)) as [E1|E1].
    + rewrite E1 at 1. rewrite (bind_Ok _ _ _ _ _ (Field_assertEquals_refl _ w)).
      apply Field_assertEquals_ne. intros E2. apply Hne. by split.
    + apply bind_Throw. by apply Field_assertEquals_ne.
Qed.

Lemma mapiM_emptyWitness (B : Backend) types : forall i w,
  mapiM (fun type _ => emptyWitness B type) i types w
  = witness_each B types (zeroValue <$> types) w.
Proof.
  induction types as [|t ts IH]; intros i w; [reflexivity|].
  simpl. unfold mbind, M_bind, bind, emptyWitness.
  destruct (Circuit_witness B t (zeroValue t) w) as [[y w1]|e]; [|reflexivity].
  specialize (IH (S i) w1). unfold emptyWitness in IH. by rewrite IH.
Qed.

(** X13.  When the context supplies no witness values (as in compilation),
    the circuit body allocates, for every declared type in order, a witness
    from the all-zero value of the type's size. *)
Theorem main_witnesses_placeholders
    (B : Backend) (types : list ParamType) (w : World) :
  main_witnesses B types None w = witness_each B types (zeroValue <$> types) w.
Proof. apply mapiM_emptyWitness. Qed.

(** ** Inversion of successful runs *)

Lemma bind_Ok_inv {A C} (m : M A) (k : A -> M C) w r :
  (m ≫= k) w = Ok r -> exists a w1, m w = Ok (a, w1) /\ k a w1 = Ok r.
Proof.
  unfold mbind, M_bind, bind. destruct (m w) as [[a w1]|e]; [|discriminate].
  intros H. by exists a, w1.
Qed.

Lemma withContext_inv {A} (ctx : Context) (f : M A) w p r w' :
  withContext ctx f w = Ok ((p, r), w') ->
  p = ctx_self ctx
  /\ exists w1, f (set_mainContext (Some ctx) w) = Ok (r, w1)
                /\ w' = set_mainContext (mainContext w) w1.
Proof.
  unfold withContext. rewrite bind_get, bind_modify. intros H.
  apply bind_Ok_inv in H as (r' & w1 & Hf & H).
  rewrite bind_modify in H. injection H as <- <- <-. split; [reflexivity|]. by exists w1.
Qed.

(** A one-party transaction, as [prove], [call] and [callUnproved] build it. *)
Lemma single_party_transaction_inv (sp : pref) w tx w' :
  createUnsignedTransaction (setCurrentTransaction (mkCurrentTransaction [sp] 1)) w
  = Ok (tx, w') ->
  currentTransaction w = None
  /\ exists x, partyHeap w !! sp = Some x
               /\ tx = mkParties (mkFeePayer 0 0 0 "dummySignature") [x]
               /\ w' = set_nextTransactionId (S (nextTransactionId w)) w.
Proof.
  unfold createUnsignedTransaction. rewrite bind_get.
  destruct (currentTransaction w) eqn:Ht; [discriminate|].
  rewrite bind_modify. unfold setCurrentTransaction. rewrite bind_modify, bind_get.
  simpl. unfold readParty, mbind, M_bind, bind, modify. simpl.
  destruct (partyHeap w !! sp) as [x|] eqn:Hx; [|discriminate].
  simpl. intros [= <- <-]. split; [reflexivity|]. exists x. split; [reflexivity|].
  split; [reflexivity|]. destruct w. simpl in *. by subst.
Qed.

(** ** Proving and checking *)

(** X14.  When [prove] succeeds, the party it returns is the one it created
    for Pass 1, a party that did not exist before the call, and the statement
    is the ledger's statement of the one-party transaction made of that party
    as the method left it, the method having run on the arguments followed by
    [true] under a prover context that carries no witness values. *)
Theorem prove_returns_pass1_party
    (B : Backend) (this : iref) (name : string) (args : list jsval)
    (provers : option (list Prover)) (w w' : World)
    (proof : Proof) (statement : Statement) (selfParty : pref) :
  prove B this name args provers w = Ok ((proof, statement, selfParty), w') ->
  selfParty = length (partyHeap w)
  /\ exists inst v w1 x,
       zkapps w !! this = Some inst
       /\ callMethod B this name (args ++ [JBool true])
            (set_mainContext (Some (mkContext selfParty false true None))
               (set_partyHeap (partyHeap w ++ [keepAll (address inst) AuthNone false]) w))
          = Ok (v, w1)
       /\ partyHeap w1 !! selfParty = Some x
       /\ statement = Ledger_transactionStatement B [x] 0.
Proof.
  unfold prove. intros H.
  apply bind_Ok_inv in H as (inst & w0 & Hinst & H).
  unfold readInstance in Hinst.
  destruct (zkapps w !! this) as [inst'|] eqn:Hi; [|discriminate].
  injection Hinst as <- <-.
  apply bind_Ok_inv in H as (cls & w0 & Hcls & H).
  unfold readClass in Hcls.
  destruct (classes w !! constructor inst') as [cls'|] eqn:Hc; [|discriminate].
  injection Hcls as <- <-.
  destruct (match provers with Some ps => Some ps | None => _provers cls' end)
    as [provers_|]; [|discriminate].
  destruct (_methods cls') as [ms|]; [|discriminate].
  destruct (findIndex _ ms) as [i|]; [|discriminate].
  apply bind_Ok_inv in H as (p0 & w0 & Hp0 & H).
  unfold defaultParty, newParty in Hp0. injection Hp0 as <- <-.
  apply bind_Ok_inv in H as ([sp v] & w2 & Hpass1 & H).
  apply withContext_inv in Hpass1 as (Hsp & w1 & Hbody & ->). simpl in Hsp.
  simpl in H.
  apply bind_Ok_inv in H as (tx & w3 & Htx & H).
  apply single_party_transaction_inv in Htx as (_ & x & Hx & -> & ->).
  apply bind_Ok_inv in H as (p1 & w4 & _ & H).
  apply bind_Ok_inv in H as (r' & w5 & _ & H).
  injection H as <- <- <- <-.
  split; [exact Hsp|]. subst sp.
  exists inst', v, w1, x. split; [reflexivity|]. split; [exact Hbody|].
  split; [exact Hx|]. reflexivity.
Qed.

(** X15.  When [runAndCheck] succeeds, the party it returns is the second
    party it created, the one the method ran on under the prover context,
    while the statement is computed from the first party it created
    ([ctx.self]), which is a different party. *)
Theorem runAndCheck_statement_of_untouched_party
    (B : Backend) (this : iref) (name : string) (args : list jsval)
    (w w' : World) (statement : Statement) (selfParty : pref) :
  runAndCheck B this name args w = Ok ((statement, selfParty), w') ->
  selfParty = S (length (partyHeap w))
  /\ exists inst v w1 x,
       zkapps w !! this = Some inst
       /\ callMethod B this name args
            (set_mainContext (Some (mkContext selfParty false true None))
               (set_partyHeap
                  ((partyHeap w ++ [keepAll (address inst) AuthNone false])
                   ++ [keepAll (address inst) AuthNone false]) w))
          = Ok (v, w1)
       /\ partyHeap w1 !! length (partyHeap w) = Some x
       /\ partyHeap w' = partyHeap w1
       /\ statement
          = mkStatement (Ledger_hashTransactionChecked B (Party_hash B x)) (Party_hash B x).
Proof.
  unfold runAndCheck. intros H.
  apply bind_Ok_inv in H as (inst & w0 & Hinst & H).
  unfold readInstance in Hinst.
  destruct (zkapps w !! this) as [inst'|] eqn:Hi; [|discriminate].
  injection Hinst as <- <-.
  apply bind_Ok_inv in H as (cls & w0 & Hcls & H).
  unfold readClass in Hcls.
  destruct (classes w !! constructor inst') as [cls'|] eqn:Hc; [|discriminate].
  injection Hcls as <- <-.
  destruct (_methods cls') as [ms|]; [|discriminate].
  destruct (findIndex _ ms) as [i|]; [|discriminate].
  apply bind_Ok_inv in H as (p0 & w0 & Hp0 & H).
  unfold defaultParty, newParty in Hp0. injection Hp0 as <- <-.
  apply bind_Ok_inv in H as (p1 & w0 & Hp1 & H).
  unfold defaultParty, newParty in Hp1. injection Hp1 as <- <-.
  apply bind_Ok_inv in H as ([sp v] & w2 & Hrun & H).
  apply withContext_inv in Hrun as (Hsp & w1 & Hbody & ->). simpl in Hsp.
  apply bind_Ok_inv in H as (st & w3 & Hst & H).
  unfold toStatement in Hst.
  apply bind_Ok_inv in Hst as (x & w4 & Hx & Hst).
  unfold readParty in Hx. simpl in Hx.
  destruct (partyHeap w1 !! length (partyHeap w)) as [x'|] eqn:Hx'; [|discriminate].
  injection Hx as <- <-. injection Hst as <- <-.
  injection H as <- <- <-. simpl.
  assert (Hsp' : sp = S (length (partyHeap w))).
  { rewrite Hsp. simpl. rewrite length_app. simpl. lia. }
  split; [exact Hsp'|].
  exists inst', v, w1, x'. split; [reflexivity|]. split.
  - rewrite Hsp. exact Hbody.
  - split; [exact Hx'|]. split; reflexivity.
Qed.

(** ** Calls from the command line *)

(** X16.  When [call] succeeds, its transaction holds exactly one account
    update: the party returned by [prove] with its authorization replaced by
    the proof, whatever authorization it carried; and a supplied [verify]
    accepted the statement and the proof. *)
Theorem call_single_proof_update
    (B : Backend) (proofToString : Proof -> string) (c : cref) (addr : PublicKey)
    (name : string) (args : list jsval) (provers : list Prover)
    (verify : option (Statement -> Proof -> bool)) (w w' : World) (tx : Parties) :
  call B proofToString c addr name args provers verify w = Ok (tx, w') ->
  exists proof statement selfParty w1 x,
    prove B (length (zkapps w)) name args (Some provers)
      (set_zkapps (zkapps w ++ [mkSmartContract addr c None]) w)
    = Ok ((proof, statement, selfParty), w1)
    /\ partyHeap w1 !! selfParty = Some x
    /\ otherParties tx = [set_authorization (AuthProof (proofToString proof)) x]
    /\ (forall v, verify = Some v -> v statement proof = true).
Proof.
  unfold call. intros H.
  apply bind_Ok_inv in H as (zkapp & w0 & Hz & H).
  unfold newInstance in Hz. injection Hz as <- <-.
  apply bind_Ok_inv in H as ([[proof statement] sp] & w1 & Hprove & H).
  apply bind_Ok_inv in H as ([] & w2 & Hupd & H).
  unfold updateParty in Hupd.
  destruct (partyHeap w1 !! sp) as [x|] eqn:Hx; [|discriminate].
  injection Hupd as <-.
  apply bind_Ok_inv in H as ([] & w3 & Hver & H).
  apply single_party_transaction_inv in H as (_ & y & Hy & -> & _).
  exists proof, statement, sp, w1, x. split; [exact Hprove|]. split; [exact Hx|].
  split.
  - simpl. f_equal.
    assert (E : partyHeap w3 = <[sp := set_authorization (AuthProof (proofToString proof)) x]>
                                  (partyHeap w1)).
    { destruct verify as [v|].
      - destruct (v statement proof); [by injection Hver as <-|discriminate].
      - by injection Hver as <-. }
    rewrite E in Hy. rewrite list_lookup_insert_eq in Hy by by eapply lookup_lt_Some.
    by injection Hy as <-.
  - intros v ->. destruct (v statement proof); [reflexivity|discriminate].
Qed.

(** X17.  When proving succeeds and the supplied [verify] rejects the proof,
    [call] fails with [ProofVerificationFailed] and builds no transaction. *)
Theorem call_rejected_proof
    (B : Backend) (proofToString : Proof -> string) (c : cref) (addr : PublicKey)
    (name : string) (args : list jsval) (provers : list Prover)
    (v : Statement -> Proof -> bool) (w w1 : World)
    (proof : Proof) (statement : Statement) (selfParty : pref) :
  prove B (length (zkapps w)) name args (Some provers)
    (set_zkapps (zkapps w ++ [mkSmartContract addr c None]) w)
  = Ok ((proof, statement, selfParty), w1) ->
  is_Some (partyHeap w1 !! selfParty) ->
  v statement proof = false ->
  call B proofToString c addr name args provers (Some v) w = Throw ProofVerificationFailed.
Proof.
  intros Hprove [x Hx] Hv. unfold call.
  erewrite bind_Ok; [|reflexivity].
  rewrite (bind_Ok _ _ _ _ _ Hprove).
  erewrite bind_Ok; [|unfold updateParty; by rewrite Hx].
  apply bind_Throw. by rewrite Hv.
Qed.

(** X18.  When [callUnproved] succeeds, its transaction holds exactly one
    account update: the party returned by [runAndCheck], signed in place with
    the optional key; the statement of [runAndCheck] is not used. *)
Theorem callUnproved_single_signed_update
    (B : Backend) (c : cref) (addr : PublicKey) (name : string) (args : list jsval)
    (key : option PrivateKey) (w w' : World) (tx : Parties) :
  callUnproved B c addr name args key w = Ok (tx, w') ->
  exists statement selfParty w1 x,
    runAndCheck B (length (zkapps w)) name args
      (set_zkapps (zkapps w ++ [mkSmartContract addr c None]) w)
    = Ok ((statement, selfParty), w1)
    /\ partyHeap w1 !! selfParty = Some x
    /\ otherParties tx
       = [sign_party (sign_with B)
            (set_authorization (AuthLazySignature key) (set_incrementNonce true x))].
Proof.
  unfold callUnproved. intros H.
  apply bind_Ok_inv in H as (zkapp & w0 & Hz & H).
  unfold newInstance in Hz. injection Hz as <- <-.
  apply bind_Ok_inv in H as ([statement sp] & w1 & Hrun & H).
  apply bind_Ok_inv in H as ([] & w2 & Hsig & H).
  unfold signInPlace, updateParty in Hsig. simpl in Hsig.
  destruct (partyHeap w1 !! sp) as [x|] eqn:Hx; [|discriminate].
  injection Hsig as <-.
  apply bind_Ok_inv in H as (tx0 & w3 & Htx & H).
  apply single_party_transaction_inv in Htx as (_ & y & Hy & -> & _).
  injection H as <- <-.
  exists statement, sp, w1, x. split; [exact Hrun|]. split; [exact Hx|].
  simpl in *. rewrite list_lookup_insert_eq in Hy by by eapply lookup_lt_Some.
  by injection Hy as <-.
Qed.

(** ** Deployment without funding, and with a signed fee payer *)




(** ** Compilation *)

Lemma compile_inv (B : Backend) (c : cref) (addr : option PublicKey) w vk ps w' :
  compile B c addr w = Ok ((vk, ps), w') ->
  exists cls cls1 w1,
    classes w !! c = Some cls
    /\ ps = PicklesProver <$> rules_of cls (length (zkapps w))
    /\ vk = Pickles_verificationKey B (rules_of cls (length (zkapps w)))
    /\ classes w1 !! c = Some cls1
    /\ mainContext w1 = mainContext w
    /\ w' = set_classes
              (<[c := set_compiled (Some ps)
                        (Some (mkVKArg (vk_data vk) (inl (vk_hash vk)))) cls1]>
                 (classes w1)) w1.
Proof.
  unfold compile. intros H.
  apply bind_Ok_inv in H as (instance & w0 & Hinst & H).
  unfold newInstance in Hinst. injection Hinst as <- <-.
  apply bind_Ok_inv in H as (cls & w0 & Hcls & H).
  unfold readClass in Hcls. simpl in Hcls.
  destruct (classes w !! c) as [cls0|] eqn:Hc; [|discriminate].
  injection Hcls as <- <-.
  apply bind_Ok_inv in H as (s & w0 & Hs & H).
  unfold selfParty, newParty in Hs. injection Hs as <- <-.
  apply bind_Ok_inv in H as ([p [vk0 ps0]] & w2 & Hctx & H).
  apply withContext_inv in Hctx as (_ & w1 & Hpick & ->).
  unfold Pickles_compile in Hpick.
  apply bind_Ok_inv in Hpick as ([] & w3 & _ & Hpick).
  injection Hpick as <- <- <-.
  simpl in H.
  apply bind_Ok_inv in H as (cls1 & w4 & Hcls1 & H).
  unfold readClass in Hcls1. simpl in Hcls1.
  destruct (classes w3 !! c) as [cls1'|] eqn:Hc1; [|discriminate].
  injection Hcls1 as <- <-.
  apply bind_Ok_inv in H as ([] & w5 & Hwr & H).
  unfold writeClass in Hwr. simpl in Hwr. rewrite Hc1 in Hwr.
  injection Hwr as <-. injection H as <- <- <-.
  exists cls0, cls1', (set_mainContext (mainContext w) w3).
  repeat split; try reflexivity. exact Hc1.
Qed.

(** X22.  When [compile] succeeds, the class holds the returned provers and
    the returned verification key; there is one prover per registered method,
    in registration order (none for a class without method list), each for the
    rule named after its method and bound to the scratch instance that
    [compile] created. *)
Theorem compile_stores_provers_in_method_order
    (B : Backend) (c : cref) (addr : option PublicKey) (w w' : World)
    (vk : VerificationKey) (ps : list Prover) :
  compile B c addr w = Ok ((vk, ps), w') ->
  exists cls cls',
    classes w !! c = Some cls
    /\ classes w' !! c = Some cls'
    /\ _provers cls' = Some ps
    /\ _verificationKey cls' = Some (mkVKArg (vk_data vk) (inl (vk_hash vk)))
    /\ length ps = length (default [] (_methods cls))
    /\ (forall i m,
          default [] (_methods cls) !! i = Some m ->
          ps !! i = Some (PicklesProver
                            (picklesRuleFromFunction (methodName m) (length (zkapps w))
                               (methodName m) (witnessArgs m)))).
Proof.
  intros H.
  apply compile_inv in H as (cls & cls1 & w1 & Hc & -> & -> & Hc1 & _ & ->).
  exists cls, (set_compiled (Some (PicklesProver <$> rules_of cls (length (zkapps w))))
                 (Some (mkVKArg
                          (vk_data (Pickles_verificationKey B (rules_of cls (length (zkapps w)))))
                          (inl (vk_hash (Pickles_verificationKey B
                                           (rules_of cls (length (zkapps w)))))))) cls1).
  split; [exact Hc|]. split.
  { simpl. apply list_lookup_insert_eq. by eapply lookup_lt_Some. }
  split; [reflexivity|]. split; [reflexivity|]. split.
  - unfold rules_of. by rewrite !length_fmap.
  - intros i m Hm. unfold rules_of. rewrite !list_lookup_fmap. by rewrite Hm.
Qed.




(** ** Witnesses *)

Lemma declareMethods_rejects_witness :
  declareMethods 0 [("_methods", [Example.FieldT])] Example.world0 = Throw ReservedName
  /\ declareMethods 0 [("version", [Example.FieldT])] Variants.tagged = Throw NotAFunction
  /\ declareMethods 0 [("bump", [Example.FieldT; PUndefined])] Example.world0
     = Throw (InvalidArgument 1).
Proof.
  split; [|split].
  - apply (proj1 (declareMethods_rejects 0 "_methods" [Example.FieldT] []
                    Example.world0 Example.C eq_refl)). reflexivity.
  - apply (proj1 (proj2 (declareMethods_rejects 0 "version" [Example.FieldT] []
                           Variants.tagged Variants.T eq_refl)) (JStr "1"));
      [reflexivity|vm_compute; reflexivity|reflexivity].
  - apply (proj2 (proj2 (declareMethods_rejects 0 "bump" [Example.FieldT; PUndefined] []
                           Example.world0 Example.C eq_refl)) (JUser "bump") 1 PUndefined);
      [reflexivity|vm_compute; reflexivity|reflexivity|reflexivity|reflexivity|].
    intros k u Hk Hu. destruct k as [|k]; [|lia]. by injection Hu as <-.
Defined.

Lemma declareMethods_registers_witness :
  exists w' cls',
    declareMethods 0 [("bump", [Example.FieldT])] Example.world0 = Ok (tt, w')
    /\ classes w' !! 0 = Some cls'
    /\ _methods cls'
       = Some [mkMethodEntry "bump" [Example.FieldT] [] [mkArg "witness" 0]]
    /\ prototype cls' !! "bump" = Some (JWrapped (JUser "bump") 1 0).
Proof.
  destruct (declareMethods_registers 0 "bump" [Example.FieldT] Example.world0
              Example.C (JUser "bump") eq_refl eq_refl eq_refl eq_refl eq_refl)
    as (w' & cls' & H1 & H2 & H3 & H4 & _).
  exists w', cls'. split; [exact H1|]. split; [exact H2|]. split; [exact H3|exact H4].
Defined.

Lemma declareMethods_succeeds_iff_witness :
  succeeds (declareMethods 0 [("add2", [Example.FieldT; Example.FieldT])] Example.world0)
  = true.
Proof.
  apply (proj2 (declareMethods_succeeds_iff 0 "add2" [Example.FieldT; Example.FieldT]
                  Example.world0 Example.C eq_refl)).
  split; [reflexivity|]. split; [vm_compute; reflexivity|reflexivity].
Defined.

Lemma declareMethods_twice_wraps_twice_witness :
  exists w',
    declareMethods 0 [("bump", [Example.FieldT]); ("bump", [Example.FieldT])] Example.world0
    = Ok (tt, w')
    /\ (classes w' !! 0 ≫= fun cls => prototype cls !! "bump")
       = Some (wrapMethod (wrapMethod (JUser "bump") 1 0) 1 0).
Proof.
  eexists. split.
  - apply (declareMethods_twice_wraps_twice 0 "bump" [Example.FieldT] Example.world0
             Example.C (JUser "bump")); reflexivity.
  - vm_compute. reflexivity.
Defined.

Lemma wrapMethod_forced_direct_witness :
  callFn Example.backend (wrapMethod (JUser "bump") 1 0) 1 [Example.Fv 5; JBool true]
    Example.in_session
  = callFn Example.backend (JUser "bump") 1 (take 1 [Example.Fv 5; JBool true])
      Example.in_session.
Proof.
  apply (wrapMethod_forced_direct Example.backend); [reflexivity|].
  intros ctx H. discriminate H.
Defined.

Lemma wrapMethod_in_compile_witness :
  callFn Example.backend (wrapMethod (JUser "bump") 1 0) 1 [Example.Fv 5] Scenario.compiling
  = callFn Example.backend (JUser "bump") 1 [Example.Fv 5] Scenario.compiling.
Proof.
  destruct (wrapMethod_in_compile Example.backend (JUser "bump") 1 0 1 [Example.Fv 5]
              Scenario.compiling (mkContext 0 true false None))
    as [_ Hok]; [by left|reflexivity|reflexivity|].
  rewrite (Hok JUndefined
             (Scenario.outcome (callFn Example.backend (JUser "bump") 1 [Example.Fv 5])
                Scenario.compiling JUndefined).2
             (mkContext 0 true false None)).
  - vm_compute. reflexivity.
  - vm_compute. reflexivity.
  - vm_compute. reflexivity.
Defined.

Lemma wrapMethod_reads_prefix_and_flag_witness :
  callFn Example.backend (wrapMethod (JUser "bump") 1 0) 1
    [Example.Fv 5; JBool true; JStr "ignored"] Example.in_session
  = callFn Example.backend (wrapMethod (JUser "bump") 1 0) 1
      [Example.Fv 5; JBool true] Example.in_session.
Proof.
  apply (wrapMethod_reads_prefix_and_flag Example.backend). reflexivity.
Defined.

Lemma registered_method_call_forced_witness :
  (declareMethods 0 [("bump", [Example.FieldT])];;
   callMethod Example.backend 0 "bump" ([Example.Fv 5] ++ [JBool true])) Scenario.undeclared
  = (declareMethods 0 [("bump", [Example.FieldT])];;
     callFn Example.backend (JUser "bump") 0 [Example.Fv 5]) Scenario.undeclared.
Proof.
  apply (registered_method_call_forced Example.backend 0 "bump" [Example.FieldT]
           Scenario.undeclared Example.C (JUser "bump") 0 (mkSmartContract 9 0 None)
           [Example.Fv 5]); try reflexivity.
  intros ctx H. discriminate H.
Defined.

Lemma refs_ok_in_session : refs_ok Example.in_session.
Proof.
  split; [|split].
  - intros ctx H. discriminate H.
  - intros i inst es Hi He. vm_compute in Hi.
    destruct i as [|[|i]]; simpl in Hi; try discriminate Hi;
      injection Hi as <-; discriminate He.
  - intros tx H. injection H as <-. split; [constructor|reflexivity].
Defined.

Lemma self_keeps_refs_ok_witness :
  exists p w1, self 1 Example.in_session = Ok (p, w1) /\ refs_ok w1
               /\ p < length (partyHeap w1).
Proof.
  destruct (self_keeps_refs_ok 1 Example.in_session (mkSmartContract 9 0 None)
              refs_ok_in_session eq_refl)
    as (p & w1 & H1 & H2 & H3 & _).
  exists p, w1. split; [exact H1|]. split; [exact H2|exact H3].
Defined.

Lemma checkStatement_outcome_witness :
  checkStatement Example.backend (mkStatement 93000315 3000010) 0 0 Example.ready
  = Ok (tt, Example.ready)
  /\ checkStatement Example.backend (mkStatement 1 2) 0 0 Example.ready
     = Throw StatementMismatch.
Proof.
  split.
  - apply (proj1 (checkStatement_outcome Example.backend (mkStatement 93000315 3000010)
                    0 0 Example.ready (keepAll 3 AuthNone true) eq_refl)).
    split; reflexivity.
  - apply (proj2 (checkStatement_outcome Example.backend (mkStatement 1 2)
                    0 0 Example.ready (keepAll 3 AuthNone true) eq_refl)).
    intros [H _]. discriminate H.
Defined.

Lemma prove_returns_pass1_party_witness :
  Scenario.proved.1.2 = length (partyHeap Example.ready).
Proof.
  apply (prove_returns_pass1_party Example.backend 1 "bump" [Example.Fv 5] None
           Example.ready Scenario.proved.2
           Scenario.proved.1.1.1 Scenario.proved.1.1.2 Scenario.proved.1.2).
  vm_compute. reflexivity.
Defined.

Lemma runAndCheck_statement_of_untouched_party_witness :
  Scenario.checked.1.2 = S (length (partyHeap Example.ready))
  /\ Scenario.checked.1.1
     = mkStatement
         (Example.hashTransaction (Example.hashParty (keepAll 9 AuthNone false)))
         (Example.hashParty (keepAll 9 AuthNone false)).
Proof.
  destruct (runAndCheck_statement_of_untouched_party Example.backend 1 "bump"
              [Example.Fv 5] Example.ready Scenario.checked.2
              Scenario.checked.1.1 Scenario.checked.1.2)
    as (Hsp & _); [vm_compute; reflexivity|].
  split; [exact Hsp|]. vm_compute. reflexivity.
Defined.

Lemma call_single_proof_update_witness :
  otherParties
    (Scenario.outcome
       (call Example.backend Scenario.proofToString 0 9 "bump" [Example.Fv 5]
          Scenario.stored_provers (Some (fun _ _ => true)))
       Example.ready (mkParties (mkFeePayer 0 0 0 "none") [])).1
  = [mkParty 9 5 None None false (AuthProof "bump") false].
Proof.
  destruct (call_single_proof_update Example.backend Scenario.proofToString 0 9 "bump"
              [Example.Fv 5] Scenario.stored_provers (Some (fun _ _ => true))
              Example.ready
              (Scenario.outcome
                 (call Example.backend Scenario.proofToString 0 9 "bump" [Example.Fv 5]
                    Scenario.stored_provers (Some (fun _ _ => true)))
                 Example.ready (mkParties (mkFeePayer 0 0 0 "none") [])).2
              (Scenario.outcome
                 (call Example.backend Scenario.proofToString 0 9 "bump" [Example.Fv 5]
                    Scenario.stored_provers (Some (fun _ _ => true)))
                 Example.ready (mkParties (mkFeePayer 0 0 0 "none") [])).1)
    as (proof & st & sp & w1 & x & Hprove & Hx & Hps & _); [vm_compute; reflexivity|].
  rewrite Hps. rewrite <- Hps. vm_compute. reflexivity.
Defined.

Lemma call_rejected_proof_witness :
  call Example.backend Scenario.proofToString 0 9 "bump" [Example.Fv 5]
    Scenario.stored_provers (Some (fun _ _ => false)) Example.ready
  = Throw ProofVerificationFailed.
Proof.
  pose (r := Scenario.outcome
               (prove Example.backend (length (zkapps Example.ready)) "bump" [Example.Fv 5]
                  (Some Scenario.stored_provers))
               (set_zkapps (zkapps Example.ready ++ [mkSmartContract 9 0 None]) Example.ready)
               Scenario.no_proof).
  apply (call_rejected_proof Example.backend Scenario.proofToString 0 9 "bump"
           [Example.Fv 5] Scenario.stored_provers (fun _ _ => false) Example.ready
           r.2 r.1.1.1 r.1.1.2 r.1.2).
  - vm_compute. reflexivity.
  - apply not_eq_None_Some. vm_compute. discriminate.
  - reflexivity.
Defined.

Lemma callUnproved_single_signed_update_witness :
  otherParties
    (Scenario.outcome
       (callUnproved Example.backend 0 9 "bump" [Example.Fv 5] (Some 11))
       Example.ready (mkParties (mkFeePayer 0 0 0 "none") [])).1
  = [mkParty 9 5 None None true (AuthSignature "signature") false].
Proof.
  destruct (callUnproved_single_signed_update Example.backend 0 9 "bump" [Example.Fv 5]
              (Some 11) Example.ready
              (Scenario.outcome
                 (callUnproved Example.backend 0 9 "bump" [Example.Fv 5] (Some 11))
                 Example.ready (mkParties (mkFeePayer 0 0 0 "none") [])).2
              (Scenario.outcome
                 (callUnproved Example.backend 0 9 "bump" [Example.Fv 5] (Some 11))
                 Example.ready (mkParties (mkFeePayer 0 0 0 "none") [])).1)
    as (st & sp & w1 & x & Hrun & Hx & Hps); [vm_compute; reflexivity|].
  rewrite Hps. rewrite <- Hps. vm_compute. reflexivity.
Defined.




Lemma compile_stores_provers_in_method_order_witness :
  exists cls',
    classes Example.compiled !! 0 = Some cls'
    /\ (length <$> _provers cls') = Some 2.
Proof.
  pose (r := Scenario.outcome (compile Example.backend 0 (Some 3)) Example.declared
               (mkVK "none" 0, [])).
  destruct (compile_stores_provers_in_method_order Example.backend 0 (Some 3)
              Example.declared r.2 r.1.1 r.1.2)
    as (cls & cls' & Hc & Hc' & Hps & _ & Hlen & _); [vm_compute; reflexivity|].
  exists cls'. split.
  - rewrite <- Hc'. vm_compute. reflexivity.
  - rewrite Hps. simpl. rewrite Hlen. f_equal.
    revert Hc. vm_compute. by intros [= <-].
Defined.

